(** * Hyperparameter evolution engine (engine/evolve.py)

    A shallow embedding of [HyperEvolve]: the metadata builder [set_meta],
    the checkpoint step [save_or_load] and the search loop of [__call__],
    followed by the properties of the search that the design document
    states.

    Conventions of the embedding.
    - Python numbers (ints and floats alike) are rationals [Q]: float
      rounding error, infinities and NaN are idealised away.  Indices that
      Python computes with [round] are integers [Z].
    - A Python [dict] is an association list in insertion order (the order
      is observable: [np.random.choice(tuple(self.meta), ...)] and the
      loops of [set_meta] iterate over it).
    - Exceptions are explicit: a loop iteration ends in [Return] or in
      [Raise], the latter with the state at the raise.
    - NumPy's global generator is an interface ([NumpyRandom]); the engine
      reseeds it at the start of every iteration. *)

From Stdlib Require Import List ZArith QArith String Bool Lia Lqa Sorted.
Import ListNotations.

Local Open Scope Z_scope.

(** ** Python numerics *)

Module Py.

(** [round(x)]: nearest integer, ties to the even one. *)
Definition round (x : Q) : Z :=
  let n := Qnum x in
  let d := Z.pos (Qden x) in
  let up := (2 * n + d) / (2 * d) in
  if ((2 * n + d) mod (2 * d) =? 0) && Z.odd up then up - 1 else up.

(** [round(x, 3)]. *)
Definition round3 (x : Q) : Q := (round (x * 1000) # 1000)%Q.

(** [np.clip(x, a_min, a_max)] = [minimum(a_max, maximum(x, a_min))]. *)
Definition clip (x a_min a_max : Z) : Z := Z.min a_max (Z.max x a_min).

Definition ltb (x y : Q) : bool := negb (Qle_bool y x).

Definition leb (x y : Q) : bool := Qle_bool x y.

Definition qmax (x y : Q) : Q := if ltb x y then y else x.

Definition qmin (x y : Q) : Q := if ltb y x then y else x.

(** [np.clip] on floats. *)
Definition qclip (x a_min a_max : Q) : Q := qmin a_max (qmax x a_min).

(** [min((a, b))]: the first of the smallest. *)
Definition min2 (a b : Q) : Q := if ltb b a then b else a.

(** [np.sign] of a float, as an [int]. *)
Definition sign (x : Q) : Z := Z.sgn (Qnum x).

Definition sum (l : list Q) : Q := fold_left Qplus l 0%Q.

(** [s.endswith(suffix)]. *)
Definition endswith (s suffix : string) : bool :=
  let n := String.length s in
  let m := String.length suffix in
  (m <=? n)%nat && String.eqb (substring (n - m) m s) suffix.

(** [s.startswith(prefix)]. *)
Definition startswith (s prefix : string) : bool := String.prefix prefix s.

End Py.

(** ** Python dictionaries, in insertion order *)

Module Dict.

Section Ops.

Context {K V : Type} (eqb : K -> K -> bool).

Fixpoint get (d : list (K * V)) (k : K) : option V :=
  match d with
  | [] => None
  | (k', v) :: d' => if eqb k k' then Some v else get d' k
  end.

Definition contains (d : list (K * V)) (k : K) : bool :=
  match get d k with Some _ => true | None => false end.

Definition replace (d : list (K * V)) (k : K) (v : V) : list (K * V) :=
  map (fun kv => if eqb k (fst kv) then (fst kv, v) else kv) d.

(** [d[k] = v]: an existing key keeps its place, a new one goes last. *)
Definition set (d : list (K * V)) (k : K) (v : V) : list (K * V) :=
  if contains d k then replace d k v else d ++ [(k, v)].

(** [d.pop(k)] for a key that is present. *)
Definition pop (d : list (K * V)) (k : K) : list (K * V) :=
  filter (fun kv => negb (eqb k (fst kv))) d.

Definition keys (d : list (K * V)) : list K := map fst d.

End Ops.

End Dict.

Definition dict (V : Type) : Type := list (string * V).

Abbreviation sget := (Dict.get String.eqb).
Abbreviation scontains := (Dict.contains String.eqb).
Abbreviation sset := (Dict.set String.eqb).
Abbreviation spop := (Dict.pop String.eqb).
Abbreviation skeys := (@Dict.keys string _).

(** ** The classification table [META] *)

(** One entry of [META]: [[lower lim, upper lim, pace]]. *)
Record Profile := mkProfile { p_lower : Q; p_upper : Q; p_pace : Q }.

Record Table := mkTable { unique : dict Profile; general : dict Profile }.

Definition META : Table :=
  {| unique :=
       [ ("weight_decay"%string, mkProfile 0 1 (1 # 100000));
         ("fl_gamma"%string, mkProfile 0 3 (1 # 1000));
         ("hsv_h"%string, mkProfile 0 (1 # 10) (1 # 100));
         ("hsv_s"%string, mkProfile 0 (9 # 10) (1 # 100));
         ("hsv_v"%string, mkProfile 0 (9 # 10) (1 # 100)) ];
     general :=
       [ ("kernel"%string, mkProfile 1 99 2);
         ("width"%string, mkProfile 4 2048 4);
         ("depth"%string, mkProfile 1 10 1);
         ("float"%string, mkProfile 0 10000000000 (1 # 100000000));
         ("uint"%string, mkProfile 0 10000000000 1);
         ("proba"%string, mkProfile 0 1 (1 # 100)) ] |}.

(** One value of [self.meta]:
    [[lower lim, upper lim, pace, patience, greedy momentum]]. *)
Record KeyMeta := mkKeyMeta {
  lower_lim : Q;
  upper_lim : Q;
  pace : Q;
  patience : Q;
  m_greed : Z
}.

(** [META[..][..] + default_state] with [default_state = [patience, 0]]. *)
Definition with_default_state (p : Profile) (self_patience : Q) : KeyMeta :=
  mkKeyMeta (p_lower p) (p_upper p) (p_pace p) self_patience 0.

Definition profile_of (e : KeyMeta) : Profile :=
  mkProfile (lower_lim e) (upper_lim e) (pace e).

(** [set_meta], with the module-level table as an argument.  (The check of
    the interpreter's version, line 34, is outside the model.) *)
Definition set_meta_from (table : Table) (hyp : dict Q) (self_patience : Q)
  : dict KeyMeta :=
  let unique_pass :=
    fold_left
      (fun meta key =>
         if scontains hyp key then
           match sget (unique table) key with
           | Some p => sset meta key (with_default_state p self_patience)
           | None => meta
           end
         else meta)
      (skeys (unique table)) [] in
  fold_left
    (fun meta suffix =>
       fold_left
         (fun meta key =>
            if Py.endswith key ("_" ++ suffix) then
              match sget (general table) suffix with
              | Some p => sset meta key (with_default_state p self_patience)
              | None => meta
              end
            else meta)
         (skeys hyp) meta)
    (skeys (general table)) unique_pass.

Definition set_meta (hyp : dict Q) (self_patience : Q) : dict KeyMeta :=
  set_meta_from META hyp self_patience.

(** ** Exceptions *)

Inductive Exn :=
| KeyError (key : string)
| ZeroDivisionError
| ValueError.

(** ** The evaluation log [self.result] *)

(** One row: the columns [hyp, previous, current, momentum, fitness]. *)
Record Trial := mkTrial {
  t_hyp : string;
  t_previous : Q;
  t_current : Q;
  t_momentum : Q;
  t_fitness : Q
}.

Module Result.

(** Modelled from the spec: the class [Result] of [engine/result.py] is not
    part of the sources.  The design document gives it three operations:
    append a trial record, the number of rows, and the maximum of the
    fitness column.  The log is the list of its rows, oldest first; the row
    of epoch [i] is at position [i]. *)
Definition t : Type := list Trial.

(** Modelled from the spec: [len(self.result)]. *)
Definition len (r : t) : Z := Z.of_nat (List.length r).

(** Modelled from the spec: [self.result.record(row, epoch)] appends the
    row; [epoch] is its index. *)
Definition record (r : t) (row : Trial) (epoch : Z) : t := r ++ [row].

(** Modelled from the spec: [self.result['fitness'].max()].  On an empty
    log the value (NaN in a data frame) is never read: the baseline epoch
    replaces it. *)
Definition fitness_max (r : t) : Q :=
  match r with
  | [] => 0%Q
  | row :: rows => fold_left (fun m x => Py.qmax m (t_fitness x)) rows (t_fitness row)
  end.

End Result.

(** ** NumPy's generator *)

(** The draws the engine asks of [np.random]: [np.random.seed],
    the index behind [np.random.choice] (with or without weights [p]) and
    [np.random.randint(low, high)]. *)
Class NumpyRandom (G : Type) := {
  seed_generator : Z -> G;
  draw_index : nat -> option (list Q) -> G -> nat * G;
  draw_int : Z -> Z -> G -> Z * G;
  draw_index_lt : forall n p g, (0 < n)%nat -> (fst (draw_index n p g) < n)%nat;
  draw_int_range : forall low high g,
    low < high -> low <= fst (draw_int low high g) < high
}.

(** ** The engine *)

Section Engine.

Context {G : Type} {RNG : NumpyRandom G}.

(** The attributes of a [HyperEvolve] object, the two files of its project
    directory, the process-wide generator, and the locals [epoch] and
    [best_fit] of [__call__].  [evals] lists the calls made to the fitness
    function, oldest first. *)
Record Run := mkRun {
  self_hyp : dict Q;
  self_meta : dict KeyMeta;
  self_seed : Z;
  self_patience : Q;
  self_result : Result.t;
  hyp_f : option (dict Q);
  state_f : option (dict KeyMeta * Z);
  generator : G;
  evals : list (dict Q * Z);
  epoch : Z;
  best_fit : Q
}.

Inductive Outcome :=
| Return (s : Run)
| Raise (e : Exn) (s : Run).

Definition state_of (o : Outcome) : Run :=
  match o with Return s => s | Raise _ s => s end.

(** [HyperEvolve(project, hyp, patience)] on a project directory holding
    the log [result] and the files [hyp_f], [state_f]; [now] is
    [round(time.time())].  The locals are not yet meaningful. *)
Definition init (hyp : dict Q) (patience0 : Q) (now : Z)
  (result : Result.t) (hyp_file : option (dict Q))
  (state_file : option (dict KeyMeta * Z)) (g : G) : Run :=
  mkRun hyp (set_meta hyp patience0) now patience0 result hyp_file state_file
    g [] 0 0.

(** [save_or_load(save=True)]: [hyp.yaml] gets [self.hyp], [evolve.yaml]
    gets [self.meta] together with [_seed]. *)
Definition save (s : Run) : Run :=
  mkRun (self_hyp s) (self_meta s) (self_seed s) (self_patience s)
    (self_result s) (Some (self_hyp s)) (Some (self_meta s, self_seed s))
    (generator s) (evals s) (epoch s) (best_fit s).

(** The entries of a loaded state document that stay in [self.meta]:
    those whose key starts with an underscore are popped and set as
    attributes (lines 74-75). *)
Definition loaded_meta (m : dict KeyMeta) : dict KeyMeta :=
  filter (fun kv => negb (Py.startswith (fst kv) "_")) m.

(** [save_or_load(save=False)]: each file that exists replaces the
    attributes it holds.  The YAML round trip is taken to give back the
    documents as they were written (PyYAML writes the keys of a mapping in
    sorted order: the order of the keys of a reloaded document is not
    modelled, its entries are). *)
Definition load (s : Run) : Run :=
  let '(meta, seed) :=
    match state_f s with
    | Some (m, sd) => (loaded_meta m, sd)
    | None => (self_meta s, self_seed s)
    end in
  let hyp := match hyp_f s with Some h => h | None => self_hyp s end in
  mkRun hyp meta seed (self_patience s) (self_result s) (hyp_f s) (state_f s)
    (generator s) (evals s) (epoch s) (best_fit s).

(** [np.random.seed(seed)] accepts [0 <= seed < 2**32]. *)
Definition np_random_seed (seed : Z) : option G :=
  if (0 <=? seed) && (seed <? 2 ^ 32) then Some (seed_generator seed) else None.

(** [np.random.choice(a, p=p)]: [a] must be non-empty and, when given,
    the probabilities must add up to one. *)
Definition np_random_choice {A : Type} (a : list A) (p : option (list Q)) (g : G)
  : option (A * G) :=
  match a with
  | [] => None
  | d :: _ =>
      let valid :=
        match p with
        | Some ps => Qeq_bool (Py.sum ps) 1
        | None => true
        end in
      if valid then
        let '(i, g') := draw_index (List.length a) p g in
        Some (nth i a d, g')
      else None
  end.

(** [np.random.randint(low, high)] draws an [int64] from [[low, high)]:
    it accepts [low < high] with [-2**63 <= low] and [high <= 2**63], and
    raises [ValueError] otherwise. *)
Definition randint_accepts (low high : Z) : bool :=
  (low <? high) && (- 2 ^ 63 <=? low) && (high <=? 2 ^ 63).

(** [{0: 1, range_: -1}.get(previous, 0)]. *)
Definition forced (range_ previous : Z) : Z :=
  match Dict.get Z.eqb (Dict.set Z.eqb (Dict.set Z.eqb [] 0 1) range_ (-1)) previous with
  | Some m => m
  | None => 0
  end.

(** What an iteration has computed when it reaches [skip = not momentum]. *)
Record Choice := mkChoice {
  c_key : string;
  c_meta : KeyMeta;
  c_value : Q;
  c_range : Z;
  c_previous : Z;
  c_forced : Z;
  c_momentum : Z;
  c_generator : G
}.

Definition set_generator (s : Run) (seed : Z) (g : G) : Run :=
  mkRun (self_hyp s) (self_meta s) seed (self_patience s) (self_result s)
    (hyp_f s) (state_f s) g (evals s) (epoch s) (best_fit s).

Definition set_locals (s : Run) (epoch' : Z) (best_fit' : Q) : Run :=
  mkRun (self_hyp s) (self_meta s) (self_seed s) (self_patience s)
    (self_result s) (hyp_f s) (state_f s) (generator s) (evals s)
    epoch' best_fit'.

Section Call.

(** The arguments of [__call__]. *)
Variable fitness : dict Q -> Z -> Q.
Variable epochs : Z.
Variable mutation : Q.

(** Lines 96-107: seed advance, key selection, direction. *)
Definition select (s : Run) : (Exn * Run) + Choice :=
  let seed := self_seed s + 1 in
  match np_random_seed seed with
  | None => inl (ValueError, set_generator s seed (generator s))
  | Some g0 =>
      let p := map (fun kv => (patience (snd kv) ^ 2)%Q) (self_meta s) in
      let total := Py.sum p in
      match np_random_choice (skeys (self_meta s))
              (Some (map (fun x => (x / total)%Q) p)) g0 with
      | None => inl (ValueError, set_generator s seed g0)
      | Some (key, g1) =>
          match sget (self_meta s) key with
          | None => inl (KeyError key, set_generator s seed g1)
          | Some e =>
              if Qeq_bool (pace e) 0 then
                inl (ZeroDivisionError, set_generator s seed g1)
              else
                let range_ := Py.round ((upper_lim e - lower_lim e) / pace e) in
                match sget (self_hyp s) key with
                | None => inl (KeyError key, set_generator s seed g1)
                | Some value =>
                    let previous := Py.round ((value - lower_lim e) / pace e) in
                    let m_forced := forced range_ previous in
                    if (m_greed e =? 0) && (m_forced =? 0) then
                      match np_random_choice [-1; 1] None g1 with
                      | None => inl (ValueError, set_generator s seed g1)
                      | Some (momentum, g2) =>
                          inr (mkChoice key e value range_ previous m_forced momentum g2)
                      end
                    else
                      inr (mkChoice key e value range_ previous m_forced
                             (Z.sgn (m_greed e + m_forced)) g1)
                end
          end
      end
  end.

(** Lines 112-114: the candidate index, for a drawn step. *)
Definition candidate (previous momentum step range_ : Z) : Z :=
  Py.clip (previous + momentum * step) 0 range_.

(** Line 115: the realized momentum. *)
Definition realized (current previous : Z) : Q :=
  Py.round3
    (Py.qclip
       ((inject_Z current - inject_Z previous)
        / (inject_Z previous + (1 # 100000000)))
       (- (1)) 1)%Q.

(** Lines 109 and 134-135 when [momentum] is 0: the key is dropped and
    nothing is evaluated. *)
Definition prune (s : Run) (c : Choice) : Run :=
  save
    (mkRun (self_hyp s) (spop (self_meta s) (c_key c)) (self_seed s + 1)
       (self_patience s) (self_result s) (hyp_f s) (state_f s)
       (c_generator c) (evals s) (epoch s) (best_fit s)).

(** Lines 111-135 when [momentum] is not 0 and the step is drawn: one
    evaluated trial. *)
Definition trial (s : Run) (c : Choice) : Run :=
  let key := c_key c in
  let e := c_meta c in
  let epoch' := epoch s + 1 in
  let high := Z.max 1 (Py.round (inject_Z (c_previous c) * mutation)) + 1 in
  let '(step, g3) := draw_int 1 high (c_generator c) in
  let current := candidate (c_previous c) (c_momentum c) step (c_range c) in
  let momentum := realized current (c_previous c) in
  let value := (inject_Z current * pace e + lower_lim e)%Q in
  let hyp := sset (self_hyp s) key value in
  let fit := fitness hyp epoch' in
  let better := (fit - best_fit s)%Q in
  let result :=
    Result.record (self_result s)
      (mkTrial key (c_value c) value momentum fit) epoch' in
  let patience' :=
    (patience e + (if Py.ltb 0 better then 1 else - (1 # 2)))%Q in
  let meta :=
    sset (self_meta s) key
      (mkKeyMeta (lower_lim e) (upper_lim e) (pace e)
         (Py.min2 (2 * self_patience s) patience')
         (Py.sign (momentum * better))) in
  let skip := Py.leb patience' 0 in
  let accepted := Py.ltb 0 better in
  save
    (mkRun (if accepted then hyp else self_hyp s)
       (if skip then spop meta key else meta) (self_seed s + 1)
       (self_patience s) result (hyp_f s) (state_f s) g3
       (evals s ++ [(hyp, epoch')]) epoch'
       (if accepted then fit else best_fit s)).

(** The exclusive upper bound of the step, [max((1, round(previous *
    mutation))) + 1] (line 113). *)
Definition step_high (previous : Z) : Z :=
  Z.max 1 (Py.round (inject_Z previous * mutation)) + 1.

(** One iteration of the [while] loop (lines 96-135).  With a direction to
    follow, [epoch] is counted (line 111) and the step is drawn: a bound
    that [np.random.randint] refuses ends the iteration there, with
    [ValueError]. *)
Definition body (s : Run) : Outcome :=
  match select s with
  | inl (e, s') => Raise e s'
  | inr c =>
      if c_momentum c =? 0 then Return (prune s c)
      else if randint_accepts 1 (step_high (c_previous c)) then
        Return (trial s c)
      else
        Raise ValueError
          (set_locals (set_generator s (self_seed s + 1) (c_generator c))
             (epoch s + 1) (best_fit s))
  end.

(** [while epoch < epochs and self.meta]. *)
Definition loop_cond (s : Run) : bool :=
  (epoch s <? epochs) && negb (Nat.eqb (List.length (self_meta s)) 0).

Fixpoint while (fuel : nat) (s : Run) : option Outcome :=
  if loop_cond s then
    match fuel with
    | O => None
    | S fuel' =>
        match body s with
        | Return s' => while fuel' s'
        | Raise e s' => Some (Raise e s')
        end
    end
  else Some (Return s).

(** Every iteration lowers this number. *)
Definition measure (s : Run) : nat :=
  (Z.to_nat (epochs - epoch s) + List.length (self_meta s))%nat.

(** Lines 83-93: resume point, load, baseline epoch, save. *)
Definition prologue (s : Run) : Run :=
  let epoch0 := Result.len (self_result s) - 1 in
  let best0 := Result.fitness_max (self_result s) in
  let s1 := load (set_locals s epoch0 best0) in
  let s2 :=
    if epoch0 =? -1 then
      let best_fit := fitness (self_hyp s1) 0 in
      mkRun (self_hyp s1) (self_meta s1) (self_seed s1) (self_patience s1)
        (Result.record (self_result s1)
           (mkTrial "baseline" 0 0 0 best_fit) (epoch0 + 1))
        (hyp_f s1) (state_f s1) (generator s1)
        (evals s1 ++ [(self_hyp s1, 0)]) (epoch0 + 1) best_fit
    else s1 in
  save s2.

(** [__call__(fitness, epochs, mutation)]: the final state; the value
    returned to the caller is its [self_hyp].  (The report of the best
    epoch and the plot, lines 136-138, change nothing in it.) *)
Definition call (s : Run) : option Outcome :=
  let s0 := prologue s in
  while (measure s0) s0.

End Call.

End Engine.

(** ** A concrete generator

    A linear congruential generator with inverse-CDF selection, to run the
    engine on concrete inputs. *)

Module Lcg.

Definition next (g : Z) : Z := (1103515245 * g + 12345) mod 2 ^ 31.

Fixpoint pick (ps : list Q) (u : Q) (i : nat) : nat :=
  match ps with
  | [] => i
  | p :: ps' => if Py.ltb u p then i else pick ps' (u - p)%Q (S i)
  end.

Definition index (n : nat) (p : option (list Q)) (g : Z) : nat * Z :=
  let g' := next g in
  let i :=
    match p with
    | Some ps => pick ps (g' # 2147483648)%Q 0%nat
    | None => Z.to_nat (g' * Z.of_nat n / 2 ^ 31)
    end in
  (Nat.min i (n - 1), g').

Definition int (low high : Z) (g : Z) : Z * Z :=
  let g' := next g in
  (low + g' mod (high - low), g').

End Lcg.

Lemma lcg_index_lt (n : nat) (p : option (list Q)) (g : Z) :
  (0 < n)%nat -> (fst (Lcg.index n p g) < n)%nat.
Proof. unfold Lcg.index; cbn [fst]; lia. Qed.

Lemma lcg_int_range (low high g : Z) :
  low < high -> low <= fst (Lcg.int low high g) < high.
Proof.
  intros H; unfold Lcg.int; cbn [fst].
  pose proof (Z.mod_pos_bound (Lcg.next g) (high - low)); lia.
Qed.

#[export] Instance lcg : NumpyRandom Z :=
  {| seed_generator := fun seed => seed;
     draw_index := Lcg.index;
     draw_int := Lcg.int;
     draw_index_lt := lcg_index_lt;
     draw_int_range := lcg_int_range |}.

(** ** A concrete run *)

Module Demo.

Local Open Scope string_scope.

Definition hyp : dict Q :=
  [("lr", 1 # 100); ("gb_kernel", 9); ("hsv_h", 1 # 50); ("x_depth", 2)]%Q.

(** The fitness function of the module's self-test (lines 170-175), less
    the value of [x_depth]; mappings without [gb_kernel] or [x_depth] score
    0. *)
Definition fitness (hyp : dict Q) (epoch : Z) : Q :=
  let loss :=
    fold_left
      (fun loss kp =>
         match sget hyp (fst kp) with
         | Some v => (loss + (v / p_upper (snd kp) - (1 # 2)) ^ 2)%Q
         | None => loss
         end)
      (unique META) 0%Q in
  match sget hyp "gb_kernel", sget hyp "x_depth" with
  | Some k, Some d => Qred (- loss - (k - 4) ^ 2 - d)%Q
  | _, _ => 0%Q
  end.

Definition mutation : Q := 1 # 2.

(** A new engine on a fresh project directory, after the baseline epoch. *)
Definition start : @Run Z :=
  prologue fitness (init hyp 2 1700000000 [] None None 7).

Definition next (s : @Run Z) : @Run Z := state_of (body fitness mutation s).

(** Epoch 1 lowers [x_depth] from 2 to 1 and is accepted; epoch 2 raises
    [gb_kernel] from 9 to 13 and is rejected; the third iteration selects
    [x_depth] again, now at its lower limit with bias [-1]. *)
Definition after1 : @Run Z := next start.
Definition after2 : @Run Z := next after1.
Definition after3 : @Run Z := next after2.

Definition choice0 : @Choice Z :=
  mkChoice "x_depth" (mkKeyMeta 1 10 1 2 0) 2 9 1 0 (-1) 652642791.

Definition row1 : Trial :=
  mkTrial "x_depth" 2 1 (- 1000 # 1000) (- 2609 # 100).

Definition row2 : Trial :=
  mkTrial "gb_kernel" 9 13 (500 # 1000) (- 8209 # 100).

Definition choice2 : @Choice Z :=
  mkChoice "x_depth" (mkKeyMeta 1 10 1 3 (-1)) 1 9 0 1 0 1669249152.

(** A second engine, built later over the project directory as the first
    one left it. *)
Definition resumed : @Run Z :=
  init hyp 2 1800000000 (self_result after3) (hyp_f after3) (state_f after3) 99.

(** Engines whose only tunable key sits at its lower, or upper, limit. *)
Definition at_lower : @Run Z :=
  prologue fitness (init [("x_depth", 1%Q)] 2 1700000000 [] None None 7).

Definition at_upper : @Run Z :=
  prologue fitness (init [("x_depth", 10%Q)] 2 1700000000 [] None None 7).

Definition choice_lower : @Choice Z :=
  mkChoice "x_depth" (mkKeyMeta 1 10 1 2 0) 1 9 0 1 1 1609702310.

Definition choice_upper : @Choice Z :=
  mkChoice "x_depth" (mkKeyMeta 1 10 1 2 0) 10 9 9 (-1) (-1) 1609702310.

End Demo.

(** ** The states of a run *)

Section Runs.

Context {G : Type} {RNG : NumpyRandom G}.

Variable fitness : dict Q -> Z -> Q.
Variable epochs : Z.
Variable mutation : Q.

(** [reaches s s']: the loop, entered in state [s], is at the top of an
    iteration in state [s'] some iterations later. *)
Inductive reaches : Run -> Run -> Prop :=
| reaches_here (s : Run) : reaches s s
| reaches_next (s s' s'' : Run) :
    loop_cond epochs s = true ->
    body fitness mutation s = Return s' ->
    reaches s' s'' ->
    reaches s s''.

End Runs.

(** Every active key is a key of the hyperparameter mapping. *)
Definition keys_in_hyp {G : Type} (s : @Run G) : Prop :=
  incl (skeys (self_meta s)) (skeys (self_hyp s)).

(** The bounds and pace of an entry are those of a row of [META]. *)
Definition from_META (e : KeyMeta) : Prop :=
  In (profile_of e) (map snd (unique META ++ general META)).

Definition meta_from_META {G : Type} (s : @Run G) : Prop :=
  forall key e, sget (self_meta s) key = Some e -> from_META e.

(** The stored patience of every active key lies in [(0, 2 * limit]]. *)
Definition patience_within (limit : Q) (meta : dict KeyMeta) : Prop :=
  forall key e, sget meta key = Some e -> (0 < patience e <= 2 * limit)%Q.

(** The project directory is fresh, or holds the two files of a
    checkpoint. *)
Definition checkpoint (ok : dict Q -> dict KeyMeta -> Prop)
  (hyp_file : option (dict Q)) (state_file : option (dict KeyMeta * Z)) : Prop :=
  match hyp_file, state_file with
  | None, None => True
  | Some h, Some (m, _) => ok h m
  | _, _ => False
  end.

(** The profile a key gets from the suffix pass of [set_meta]: that of the
    last suffix of the table it ends with. *)
Definition suffix_profile (general_table : dict Profile) (key : string)
  : option Profile :=
  fold_left
    (fun found suffix =>
       if Py.endswith key ("_" ++ suffix) then
         match sget general_table suffix with
         | Some p => Some p
         | None => found
         end
       else found)
    (skeys general_table) None.

(** [same_run s1 s2]: the two states differ at most in the state of the
    process-wide generator. *)
Definition same_run {G : Type} (s1 s2 : @Run G) : Prop :=
  set_generator s1 (self_seed s1) (generator s2) = s2.

(** The exception an outcome carries, if any. *)
Definition raised {G : Type} (o : @Outcome G) : option Exn :=
  match o with Return _ => None | Raise e _ => Some e end.

(** * Properties *)

(** ** Python numerics *)

Example round_ties_to_even :
  Py.round (1 # 2) = 0 /\ Py.round (3 # 2) = 2 /\ Py.round (5 # 2) = 2 /\
  Py.round (- (1 # 2)) = 0 /\ Py.round (- (3 # 2)) = -2 /\
  Py.round (26 # 10) = 3 /\ Py.round (- (24 # 10)) = -2.
Proof. repeat split. Qed.

Lemma round_integer (z : Z) : Py.round (inject_Z z) = z.
Proof.
  unfold Py.round, inject_Z; cbn [Qnum Qden].
  change (2 * 1) with 2.
  rewrite <- (Z.div_unique_pos (2 * z + 1) 2 z 1) by lia.
  rewrite <- (Z.mod_unique_pos (2 * z + 1) 2 z 1) by lia.
  reflexivity.
Qed.

(** [round] is within a half of its argument. *)
Lemma round_nearest (x : Q) :
  (inject_Z (Py.round x) - (1 # 2) <= x <= inject_Z (Py.round x) + (1 # 2))%Q.
Proof.
  destruct x as [n d]; unfold Py.round, Qle, inject_Z; cbn [Qnum Qden Qplus Qminus Qopp].
  pose proof (Z.div_mod (2 * n + Z.pos d) (2 * Z.pos d) ltac:(lia)) as Hdm.
  pose proof (Z.mod_pos_bound (2 * n + Z.pos d) (2 * Z.pos d) ltac:(lia)) as Hb.
  set (q := (2 * n + Z.pos d) / (2 * Z.pos d)) in *.
  set (r := (2 * n + Z.pos d) mod (2 * Z.pos d)) in *.
  destruct (Z.eqb_spec r 0) as [Hr|Hr]; cbn [andb].
  - destruct (Z.odd q); cbn [Qnum Qden Qplus Qminus Qopp Qmult]; nia.
  - cbn [Qnum Qden Qplus Qminus Qopp Qmult]; nia.
Qed.

(** ** Dictionaries *)

Section DictFacts.

Context {K V : Type} (eqb : K -> K -> bool).

Hypothesis eqb_spec : forall x y, reflect (x = y) (eqb x y).

Ltac case_eqb :=
  match goal with
  | |- context [eqb ?a ?b] => destruct (eqb_spec a b)
  end.

Lemma get_in_keys (d : list (K * V)) k v :
  Dict.get eqb d k = Some v -> In k (Dict.keys d).
Proof.
  induction d as [|[k' v'] d IH]; cbn; [discriminate|].
  destruct (eqb_spec k k'); auto.
Qed.

Lemma in_keys_get (d : list (K * V)) k :
  In k (Dict.keys d) -> exists v, Dict.get eqb d k = Some v.
Proof.
  induction d as [|[k' v'] d IH]; cbn; [tauto|].
  intros [E|H]; destruct (eqb_spec k k'); eauto; congruence.
Qed.

Lemma contains_in_keys (d : list (K * V)) k :
  Dict.contains eqb d k = true <-> In k (Dict.keys d).
Proof.
  unfold Dict.contains; split.
  - destruct (Dict.get eqb d k) eqn:E; [|discriminate].
    intros _; eapply get_in_keys; eauto.
  - intros H; apply in_keys_get in H as [v ->]; reflexivity.
Qed.

Lemma keys_replace (d : list (K * V)) k v :
  Dict.keys (Dict.replace eqb d k v) = Dict.keys d.
Proof.
  unfold Dict.keys, Dict.replace; rewrite map_map; apply map_ext.
  intros [k' v']; cbn; destruct (eqb k k'); reflexivity.
Qed.

Lemma length_replace (d : list (K * V)) k v :
  List.length (Dict.replace eqb d k v) = List.length d.
Proof. apply length_map. Qed.

Lemma get_replace_eq (d : list (K * V)) k v :
  In k (Dict.keys d) -> Dict.get eqb (Dict.replace eqb d k v) k = Some v.
Proof.
  unfold Dict.replace.
  induction d as [|[k' v'] d IH]; cbn; [tauto|].
  intros H; destruct (eqb_spec k k') as [E|N]; cbn.
  - case_eqb; congruence.
  - case_eqb; [congruence|]; apply IH; destruct H; [congruence|assumption].
Qed.

Lemma get_replace_ne (d : list (K * V)) k k' v :
  k' <> k -> Dict.get eqb (Dict.replace eqb d k v) k' = Dict.get eqb d k'.
Proof.
  intros N; unfold Dict.replace.
  induction d as [|[k0 v0] d IH]; cbn; [reflexivity|].
  destruct (eqb_spec k k0) as [E|N0]; cbn;
    destruct (eqb_spec k' k0); congruence.
Qed.

Lemma get_app_last (d : list (K * V)) k k' v :
  Dict.get eqb (d ++ [(k, v)]) k' =
  match Dict.get eqb d k' with
  | Some x => Some x
  | None => if eqb k' k then Some v else None
  end.
Proof.
  induction d as [|[k0 v0] d IH]; cbn; [reflexivity|].
  destruct (eqb k' k0); auto.
Qed.

Lemma get_set_eq (d : list (K * V)) k v :
  Dict.get eqb (Dict.set eqb d k v) k = Some v.
Proof.
  unfold Dict.set; destruct (Dict.contains eqb d k) eqn:E.
  - apply get_replace_eq, contains_in_keys, E.
  - rewrite get_app_last. unfold Dict.contains in E.
    destruct (Dict.get eqb d k); [discriminate|].
    destruct (eqb_spec k k); congruence.
Qed.

Lemma get_set_ne (d : list (K * V)) k k' v :
  k' <> k -> Dict.get eqb (Dict.set eqb d k v) k' = Dict.get eqb d k'.
Proof.
  intros N; unfold Dict.set; destruct (Dict.contains eqb d k).
  - apply get_replace_ne, N.
  - rewrite get_app_last; destruct (Dict.get eqb d k'); [reflexivity|].
    destruct (eqb_spec k' k); congruence.
Qed.

Lemma keys_set (d : list (K * V)) k v k' :
  In k' (Dict.keys (Dict.set eqb d k v)) <-> k' = k \/ In k' (Dict.keys d).
Proof.
  unfold Dict.set; destruct (Dict.contains eqb d k) eqn:E.
  - rewrite keys_replace; apply contains_in_keys in E.
    split; [auto|intros [->|]; auto].
  - unfold Dict.keys; rewrite map_app, in_app_iff; cbn.
    split; [intros [|[|[]]]|intros [|]]; auto.
Qed.

Lemma keys_set_present (d : list (K * V)) k v :
  In k (Dict.keys d) -> Dict.keys (Dict.set eqb d k v) = Dict.keys d.
Proof.
  intros H; apply contains_in_keys in H; unfold Dict.set; rewrite H.
  apply keys_replace.
Qed.

Lemma length_set_present (d : list (K * V)) k v :
  In k (Dict.keys d) ->
  List.length (Dict.set eqb d k v) = List.length d.
Proof.
  intros H; apply contains_in_keys in H; unfold Dict.set; rewrite H.
  apply length_replace.
Qed.

Lemma nodup_keys_set (d : list (K * V)) k v :
  NoDup (Dict.keys d) -> NoDup (Dict.keys (Dict.set eqb d k v)).
Proof.
  intros H; unfold Dict.set; destruct (Dict.contains eqb d k) eqn:E.
  - rewrite keys_replace; exact H.
  - unfold Dict.keys; rewrite map_app; cbn.
    apply NoDup_app; [exact H|constructor; [intros []|constructor]|].
    intros x Hx [<-|[]].
    apply contains_in_keys in Hx; congruence.
Qed.

Lemma keys_pop (d : list (K * V)) k k' :
  In k' (Dict.keys (Dict.pop eqb d k)) <-> k' <> k /\ In k' (Dict.keys d).
Proof.
  unfold Dict.keys, Dict.pop; rewrite !in_map_iff; split.
  - intros [[k0 v0] [<- H]]; apply filter_In in H as [H E]; cbn in *.
    destruct (eqb_spec k k0); [discriminate|].
    split; [congruence|]; exists (k0, v0); auto.
  - intros [N [[k0 v0] [<- H]]]; exists (k0, v0); split; [reflexivity|].
    apply filter_In; split; [exact H|]; cbn in *.
    destruct (eqb_spec k k0); cbn; congruence.
Qed.

Lemma get_pop_ne (d : list (K * V)) k k' :
  k' <> k -> Dict.get eqb (Dict.pop eqb d k) k' = Dict.get eqb d k'.
Proof.
  intros N; unfold Dict.pop.
  induction d as [|[k0 v0] d IH]; cbn; [reflexivity|].
  destruct (eqb_spec k k0) as [E|N0]; cbn.
  - destruct (eqb_spec k' k0); congruence.
  - rewrite IH; reflexivity.
Qed.

Lemma get_pop_eq (d : list (K * V)) k :
  Dict.get eqb (Dict.pop eqb d k) k = None.
Proof.
  destruct (Dict.get eqb (Dict.pop eqb d k) k) eqn:E; [|reflexivity].
  apply get_in_keys, keys_pop in E; tauto.
Qed.

Lemma length_pop_le (d : list (K * V)) k :
  (List.length (Dict.pop eqb d k) <= List.length d)%nat.
Proof. apply filter_length_le. Qed.

Lemma length_pop_lt (d : list (K * V)) k :
  In k (Dict.keys d) ->
  (List.length (Dict.pop eqb d k) < List.length d)%nat.
Proof.
  induction d as [|[k0 v0] d IH]; cbn; [tauto|].
  intros H; destruct (eqb_spec k k0) as [E|N]; cbn.
  - pose proof (length_pop_le d k); unfold Dict.pop in *; lia.
  - destruct H; [congruence|]; apply IH in H; unfold Dict.pop in *; lia.
Qed.

End DictFacts.

(** ** One iteration *)

Section EngineFacts.

Context {G : Type} {RNG : NumpyRandom G}.

Variable fitness : dict Q -> Z -> Q.
Variable epochs : Z.
Variable mutation : Q.

Ltac case_match H :=
  match type of H with
  | context [match ?x with _ => _ end] => destruct x eqn:?
  end.

Lemma forced_lower (range_ : Z) : range_ <> 0 -> forced range_ 0 = 1.
Proof.
  intros H; unfold forced, Dict.set, Dict.contains; cbn.
  destruct (Z.eqb_spec range_ 0); [contradiction|]; cbn.
  reflexivity.
Qed.

Lemma forced_upper (range_ : Z) : forced range_ range_ = -1.
Proof.
  unfold forced, Dict.set, Dict.contains; cbn.
  destruct (Z.eqb_spec range_ 0) as [->|N]; cbn; [reflexivity|].
  destruct (Z.eqb_spec range_ 0); [contradiction|].
  rewrite Z.eqb_refl; reflexivity.
Qed.

Lemma forced_inside (range_ previous : Z) :
  previous <> 0 -> previous <> range_ -> forced range_ previous = 0.
Proof.
  intros H0 H1; unfold forced, Dict.set, Dict.contains; cbn.
  destruct (Z.eqb_spec range_ 0) as [->|N]; cbn.
  - destruct (Z.eqb_spec previous 0); [contradiction|reflexivity].
  - destruct (Z.eqb_spec previous 0); [contradiction|].
    destruct (Z.eqb_spec previous range_); [contradiction|reflexivity].
Qed.

Lemma choice_sign (g : G) :
  exists m g', np_random_choice [-1; 1] None g = Some (m, g') /\ (m = -1 \/ m = 1).
Proof.
  unfold np_random_choice.
  change (List.length [-1; 1]) with 2%nat.
  pose proof (draw_index_lt 2 None g ltac:(lia)) as H.
  destruct (draw_index 2 None g) as [i g']; cbn in H.
  exists (nth i [-1; 1] (-1)), g'; split; [reflexivity|].
  destruct i as [|[|i]]; cbn; [auto|auto|lia].
Qed.

(** What [select] has established when it hands over a choice. *)
Lemma select_inr (s : Run) (c : Choice) :
  select s = inr c ->
  sget (self_meta s) (c_key c) = Some (c_meta c) /\
  sget (self_hyp s) (c_key c) = Some (c_value c) /\
  c_range c =
    Py.round ((upper_lim (c_meta c) - lower_lim (c_meta c)) / pace (c_meta c)) /\
  c_previous c =
    Py.round ((c_value c - lower_lim (c_meta c)) / pace (c_meta c)) /\
  c_forced c = forced (c_range c) (c_previous c) /\
  (if (m_greed (c_meta c) =? 0) && (c_forced c =? 0)
   then c_momentum c = -1 \/ c_momentum c = 1
   else c_momentum c = Z.sgn (m_greed (c_meta c) + c_forced c)).
Proof.
  unfold select; intros H.
  repeat case_match H; try discriminate; inversion H; subst; cbn.
  - repeat split; auto.
    match goal with E : (_ && _) = true |- _ => rewrite E end.
    match goal with E : np_random_choice [-1; 1] None ?g = _ |- _ =>
      destruct (choice_sign g) as (m & g' & E' & Hm); rewrite E' in E;
      inversion E; subst; exact Hm end.
  - repeat split; auto.
    match goal with E : (_ && _) = false |- _ => rewrite E end.
    reflexivity.
Qed.

Lemma ltb_spec (x y : Q) : reflect (x < y)%Q (Py.ltb x y).
Proof.
  unfold Py.ltb; destruct (Qle_bool y x) eqn:E; cbn; constructor.
  - apply Qle_bool_iff in E; apply Qle_not_lt, E.
  - apply Qnot_le_lt; intros H; apply Qle_bool_iff in H; congruence.
Qed.

Lemma leb_spec (x y : Q) : reflect (x <= y)%Q (Py.leb x y).
Proof.
  unfold Py.leb; destruct (Qle_bool x y) eqn:E; constructor.
  - apply Qle_bool_iff, E.
  - intros H; apply Qle_bool_iff in H; congruence.
Qed.

(** The two ways an iteration completes. *)
Lemma body_return (s s' : Run) :
  body fitness mutation s = Return s' ->
  exists c, select s = inr c /\
    ((c_momentum c = 0 /\ s' = prune s c) \/
     (c_momentum c <> 0 /\ s' = trial fitness mutation s c)).
Proof.
  unfold body; intros H.
  destruct (select s) as [[e s1]|c] eqn:E; [discriminate|].
  exists c; split; [reflexivity|].
  destruct (Z.eqb_spec (c_momentum c) 0); [inversion H; auto|].
  destruct (randint_accepts 1 (step_high mutation (c_previous c)));
    inversion H; auto.
Qed.

Lemma body_select (s : Run) (c : Choice) :
  select s = inr c ->
  c_momentum c = 0 \/
  randint_accepts 1 (step_high mutation (c_previous c)) = true ->
  body fitness mutation s =
  Return (if c_momentum c =? 0 then prune s c else trial fitness mutation s c).
Proof.
  unfold body; intros -> H.
  destruct (Z.eqb_spec (c_momentum c) 0) as [E|N]; [reflexivity|].
  destruct H as [H | ->]; [contradiction|reflexivity].
Qed.

Lemma body_returns (s s' : Run) (c : Choice) :
  select s = inr c ->
  body fitness mutation s = Return s' ->
  s' = if c_momentum c =? 0 then prune s c else trial fitness mutation s c.
Proof.
  intros Hc Hbody.
  apply body_return in Hbody as (c' & Hc' & Hcase).
  rewrite Hc in Hc'; injection Hc' as <-.
  destruct Hcase as [[E ->]|[N ->]].
  - rewrite E; reflexivity.
  - destruct (Z.eqb_spec (c_momentum c) 0); [contradiction|reflexivity].
Qed.

Lemma app_one_neq {A : Type} (l : list A) (x : A) : l <> l ++ [x].
Proof.
  intros H; apply (f_equal (@List.length A)) in H.
  rewrite length_app in H; cbn in H; lia.
Qed.

(** ** Acceptance (C1) *)

(** C1. Every evaluated trial appends one row to the log.  The fitness of
    the row is that of the mapping with the selected key set to the
    candidate value.  When it improves on the best known fitness the stored
    mapping becomes that candidate mapping and the best known fitness
    becomes the new fitness; otherwise the stored mapping (and the best
    known fitness) after the trial are those before it. *)
Theorem trial_accepts_or_rejects (s s' : Run) (row : Trial) :
  body fitness mutation s = Return s' ->
  self_result s' = self_result s ++ [row] ->
  t_fitness row =
    fitness (sset (self_hyp s) (t_hyp row) (t_current row)) (epoch s + 1) /\
  ((0 < t_fitness row - best_fit s)%Q ->
   self_hyp s' = sset (self_hyp s) (t_hyp row) (t_current row) /\
   best_fit s' = t_fitness row) /\
  ((t_fitness row - best_fit s <= 0)%Q ->
   self_hyp s' = self_hyp s /\ best_fit s' = best_fit s).
Proof.
  intros Hbody Hrow.
  apply body_return in Hbody as (c & Hc & [[_ ->]|[_ ->]]).
  - cbn in Hrow; exfalso; exact (app_one_neq _ _ Hrow).
  - unfold trial in *.
    destruct (draw_int _ _ _) as [step g3]; cbn in *.
    apply app_inj_tail in Hrow as [_ <-]; cbn.
    split; [reflexivity|].
    destruct (ltb_spec 0 (fitness
      (sset (self_hyp s) (c_key c)
         (inject_Z (candidate (c_previous c) (c_momentum c) step (c_range c))
          * pace (c_meta c) + lower_lim (c_meta c))%Q) (epoch s + 1)
      - best_fit s)) as [Hlt|Hge].
    + split; [auto|].
      intros Hle; exfalso; exact (Qlt_not_le _ _ Hlt Hle).
    + split; [intros Hlt; contradiction|auto].
Qed.

(** ** The rows of [META] *)

(** Every row of [META] spans at least nine paces, and its pace is not
    zero. *)
Lemma META_range (e : KeyMeta) :
  from_META e ->
  9 <= Py.round ((upper_lim e - lower_lim e) / pace e) /\
  Qeq_bool (pace e) 0 = false.
Proof.
  unfold from_META, profile_of; cbn; intros H.
  repeat (destruct H as [H|H]; [inversion H; split; reflexivity || (vm_compute; discriminate)|]).
  destruct H.
Qed.

Lemma clip_between (x a_min a_max : Z) :
  a_min <= a_max -> a_min <= Py.clip x a_min a_max <= a_max.
Proof. unfold Py.clip; lia. Qed.

(** ** Direction at the bounds (C2) *)

(** C2. For the key an iteration selects among the active keys (whose
    bounds and pace come from [META]), with [range_ = round((upper -
    lower) / pace)]: when its directional bias is 0 and its previous index
    is 0 the resolved direction is [+1], and when its directional bias is 0
    and its previous index is [range_] the resolved direction is [-1]. *)
Theorem pinned_key_direction (s : Run) (c : Choice) :
  meta_from_META s ->
  select s = inr c ->
  m_greed (c_meta c) = 0 ->
  c_range c =
    Py.round ((upper_lim (c_meta c) - lower_lim (c_meta c)) / pace (c_meta c)) /\
  (c_previous c = 0 -> c_momentum c = 1) /\
  (c_previous c = c_range c -> c_momentum c = -1).
Proof.
  intros Hmeta Hc Hgreed.
  apply select_inr in Hc as (Hget & _ & Hrange & _ & Hforced & Hmom).
  pose proof (META_range _ (Hmeta _ _ Hget)) as [H9 _].
  rewrite <- Hrange in H9; rewrite Hgreed in Hmom; cbn in Hmom.
  split; [exact Hrange|split; intros Hp; rewrite Hp in Hforced].
  - rewrite forced_lower in Hforced by lia.
    rewrite Hforced in Hmom; exact Hmom.
  - rewrite forced_upper in Hforced.
    rewrite Hforced in Hmom; exact Hmom.
Qed.

(** ** Candidate index (C4) *)

(** C4. For the key an iteration selects among the active keys (whose
    bounds and pace come from [META]), with [range_ = round((upper_lim -
    lower_lim) / pace)]: whatever the direction and whatever the step
    drawn, the candidate index lies in [[0, range_]]; and the candidate
    value of the trial the iteration evaluates is such an index, times the
    pace, plus the lower limit. *)
Theorem candidate_within_range (s : Run) (c : Choice) :
  meta_from_META s ->
  select s = inr c ->
  c_range c =
    Py.round ((upper_lim (c_meta c) - lower_lim (c_meta c)) / pace (c_meta c)) /\
  (forall momentum step : Z,
     0 <= candidate (c_previous c) momentum step (c_range c) <= c_range c) /\
  (forall (s' : Run) (row : Trial),
     body fitness mutation s = Return s' ->
     self_result s' = self_result s ++ [row] ->
     exists current : Z,
       0 <= current <= c_range c /\
       t_current row =
         (inject_Z current * pace (c_meta c) + lower_lim (c_meta c))%Q).
Proof.
  intros Hmeta Hc.
  pose proof Hc as Hsel.
  apply select_inr in Hc as (Hget & _ & Hrange & _).
  pose proof (META_range _ (Hmeta _ _ Hget)) as [H9 _].
  rewrite <- Hrange in H9.
  assert (Hclip : forall momentum step : Z,
    0 <= candidate (c_previous c) momentum step (c_range c) <= c_range c).
  { intros; apply clip_between; lia. }
  split; [exact Hrange|split; [exact Hclip|]].
  intros s' row Hbody Hrow.
  apply body_return in Hbody as (c' & Hc' & Hcase).
  rewrite Hsel in Hc'; injection Hc' as <-.
  destruct Hcase as [[_ ->]|[_ ->]].
  - cbn in Hrow; exfalso; exact (app_one_neq _ _ Hrow).
  - unfold trial in Hrow.
    destruct (draw_int _ _ _) as [step g3]; cbn in Hrow.
    apply app_inj_tail in Hrow as [_ <-]; cbn.
    eexists; split; [apply Hclip|reflexivity].
Qed.

(** ** What an iteration does to the metadata and to the mapping *)

Lemma min2_le (a b : Q) : (Py.min2 a b <= a)%Q.
Proof. unfold Py.min2; destruct (ltb_spec b a); lra. Qed.

Lemma min2_pos (a b : Q) : (0 < a)%Q -> (0 < b)%Q -> (0 < Py.min2 a b)%Q.
Proof. unfold Py.min2; destruct (ltb_spec b a); auto. Qed.

Lemma prune_meta (s : @Run G) (c : Choice) (k : string) (e' : KeyMeta) :
  sget (self_meta (prune s c)) k = Some e' ->
  k <> c_key c /\ sget (self_meta s) k = Some e'.
Proof.
  cbn; intros H.
  destruct (String.eqb_spec k (c_key c)) as [->|N].
  - rewrite (get_pop_eq _ String.eqb_spec) in H; discriminate.
  - rewrite (get_pop_ne _ String.eqb_spec) in H by exact N; auto.
Qed.

Lemma trial_meta (s : Run) (c : Choice) (k : string) (e' : KeyMeta) :
  sget (self_meta (trial fitness mutation s c)) k = Some e' ->
  (k <> c_key c /\ sget (self_meta s) k = Some e') \/
  (k = c_key c /\ profile_of e' = profile_of (c_meta c) /\
   (patience e' <= 2 * self_patience s)%Q /\
   ((0 < self_patience s)%Q -> (0 < patience e')%Q)).
Proof.
  unfold trial; destruct (draw_int _ _ _) as [step g3]; cbn.
  match goal with |- context [Py.leb ?p 0] => set (p' := p) end.
  intros H; destruct (String.eqb_spec k (c_key c)) as [->|N].
  - right; destruct (leb_spec p' 0) as [Hle|Hgt].
    + rewrite (get_pop_eq _ String.eqb_spec) in H; discriminate.
    + rewrite (get_set_eq _ String.eqb_spec) in H; injection H as <-; cbn.
      repeat split; [apply min2_le|].
      intros HP; apply min2_pos; lra.
  - left; split; [exact N|].
    destruct (Py.leb p' 0).
    + rewrite (get_pop_ne _ String.eqb_spec) in H by exact N.
      rewrite (get_set_ne _ String.eqb_spec) in H by exact N; exact H.
    + rewrite (get_set_ne _ String.eqb_spec) in H by exact N; exact H.
Qed.

(** An entry of the metadata after an iteration is an entry before it, or
    the updated entry of the key that was tried. *)
Lemma body_meta (s s' : Run) (k : string) (e' : KeyMeta) :
  body fitness mutation s = Return s' ->
  sget (self_meta s') k = Some e' ->
  exists e, sget (self_meta s) k = Some e /\
    profile_of e' = profile_of e /\
    (e' = e \/
     ((patience e' <= 2 * self_patience s)%Q /\
      ((0 < self_patience s)%Q -> (0 < patience e')%Q))).
Proof.
  intros Hbody H.
  apply body_return in Hbody as (c & Hc & [[_ ->]|[_ ->]]).
  - apply prune_meta in H as [_ H]; eauto.
  - apply select_inr in Hc as (Hget & _).
    apply trial_meta in H as [[_ H]|(-> & Hp & Hle)]; eauto.
Qed.

Lemma body_patience (s s' : Run) :
  body fitness mutation s = Return s' -> self_patience s' = self_patience s.
Proof.
  intros Hbody.
  apply body_return in Hbody as (c & Hc & [[_ ->]|[_ ->]]); [reflexivity|].
  unfold trial; destruct (draw_int _ _ _); reflexivity.
Qed.

(** The loop never adds a key to the metadata. *)
Lemma body_meta_keys (s s' : Run) :
  body fitness mutation s = Return s' ->
  incl (skeys (self_meta s')) (skeys (self_meta s)).
Proof.
  intros Hbody k Hk.
  apply (in_keys_get _ String.eqb_spec) in Hk as [e' He'].
  destruct (body_meta _ _ _ _ Hbody He') as (e & He & _).
  exact (get_in_keys _ String.eqb_spec _ _ _ He).
Qed.

(** The loop never changes the keys of the mapping. *)
Lemma body_hyp_keys (s s' : Run) :
  body fitness mutation s = Return s' ->
  skeys (self_hyp s') = skeys (self_hyp s).
Proof.
  intros Hbody.
  apply body_return in Hbody as (c & Hc & [[_ ->]|[_ ->]]); [reflexivity|].
  apply select_inr in Hc as (_ & Hget & _).
  unfold trial; destruct (draw_int _ _ _); cbn.
  destruct (Py.ltb _ _); [|reflexivity].
  apply (keys_set_present _ String.eqb_spec).
  exact (get_in_keys _ String.eqb_spec _ _ _ Hget).
Qed.

(** A property kept by every iteration holds all along a run. *)
Lemma reaches_invariant (I : Run -> Prop) :
  (forall s s', I s -> body fitness mutation s = Return s' -> I s') ->
  forall s s', reaches fitness epochs mutation s s' -> I s -> I s'.
Proof.
  intros Hstep s s' Hreach; induction Hreach; eauto.
Qed.

Lemma reaches_trans (s s' s'' : Run) :
  reaches fitness epochs mutation s s' ->
  reaches fitness epochs mutation s' s'' ->
  reaches fitness epochs mutation s s''.
Proof.
  intros H1 H2; induction H1; [exact H2|].
  eapply reaches_next; eauto.
Qed.

(** ** The metadata builder *)

Lemma fold_left_invariant {A B : Type} (f : A -> B -> A) (I : A -> Prop)
  (l : list B) :
  (forall a b, I a -> In b l -> I (f a b)) ->
  forall a, I a -> I (fold_left f l a).
Proof.
  induction l as [|b l IH]; cbn; intros Hf a Ha; [exact Ha|].
  apply IH; auto.
Qed.

Lemma get_in_values {V : Type} (d : dict V) (k : string) (v : V) :
  sget d k = Some v -> In v (map snd d).
Proof.
  induction d as [|[k' v'] d IH]; cbn; [discriminate|].
  destruct (String.eqb k k'); [intros [= ->]; auto|auto].
Qed.

(** What one assignment [self.meta[key] = ...] of [set_meta] keeps true. *)
Lemma set_keeps {V : Type} (good : string -> V -> Prop) (d : dict V)
  (key : string) (v : V) :
  (forall k e, sget d k = Some e -> good k e) ->
  good key v ->
  forall k e, sget (sset d key v) k = Some e -> good k e.
Proof.
  intros Hd Hv k e H.
  destruct (String.eqb_spec k key) as [->|N].
  - rewrite (get_set_eq _ String.eqb_spec) in H; injection H as <-; exact Hv.
  - rewrite (get_set_ne _ String.eqb_spec) in H by exact N; auto.
Qed.

(** Every record [set_meta] registers belongs to a key of the mapping and
    is a row of the table followed by the default state. *)
Lemma set_meta_from_entries (table : Table) (hyp : dict Q) (P : Q)
  (key : string) (e : KeyMeta) :
  sget (set_meta_from table hyp P) key = Some e ->
  In key (skeys hyp) /\
  exists p, In p (map snd (unique table ++ general table)) /\
    e = with_default_state p P.
Proof.
  revert key e; unfold set_meta_from.
  apply fold_left_invariant.
  - intros meta suffix Hmeta _.
    apply fold_left_invariant; [|exact Hmeta].
    intros meta' key Hmeta' Hkey.
    destruct (Py.endswith key ("_" ++ suffix)); [|exact Hmeta'].
    destruct (sget (general table) suffix) as [p|] eqn:Hp; [|exact Hmeta'].
    apply set_keeps; [exact Hmeta'|].
    split; [exact Hkey|exists p; split; [|reflexivity]].
    rewrite map_app, in_app_iff; right; eapply get_in_values; eauto.
  - apply fold_left_invariant; [|cbn; discriminate].
    intros meta key Hmeta _.
    destruct (scontains hyp key) eqn:Hin; [|exact Hmeta].
    destruct (sget (unique table) key) as [p|] eqn:Hp; [|exact Hmeta].
    apply set_keeps; [exact Hmeta|].
    split; [apply (contains_in_keys _ String.eqb_spec), Hin|].
    exists p; split; [|reflexivity].
    rewrite map_app, in_app_iff; left; eapply get_in_values; eauto.
Qed.

Lemma set_meta_keys (hyp : dict Q) (P : Q) :
  incl (skeys (set_meta hyp P)) (skeys hyp).
Proof.
  intros k Hk.
  apply (in_keys_get _ String.eqb_spec) in Hk as [e He].
  apply set_meta_from_entries in He; tauto.
Qed.

Lemma set_meta_from_META (hyp : dict Q) (P : Q) (key : string) (e : KeyMeta) :
  sget (set_meta hyp P) key = Some e -> from_META e /\ patience e = P.
Proof.
  intros H; apply set_meta_from_entries in H as (_ & p & Hp & ->).
  split; [|reflexivity].
  unfold from_META, profile_of, with_default_state; cbn [lower_lim upper_lim pace].
  destruct p; exact Hp.
Qed.

(** ** Before the loop *)

Lemma get_filter_keys {V : Type} (f : string -> bool) (d : dict V)
  (k : string) :
  sget (filter (fun kv => f (fst kv)) d) k = if f k then sget d k else None.
Proof.
  induction d as [|[k0 v0] d IH]; cbn [filter fst].
  - destruct (f k); reflexivity.
  - destruct (f k0) eqn:E0; cbn [Dict.get].
    + destruct (String.eqb_spec k k0) as [E|N]; [|exact IH].
      rewrite E, E0; reflexivity.
    + destruct (String.eqb_spec k k0) as [E|N].
      * rewrite IH, E, E0; reflexivity.
      * exact IH.
Qed.

Lemma loaded_meta_get (m : dict KeyMeta) (k : string) (e : KeyMeta) :
  sget (loaded_meta m) k = Some e -> sget m k = Some e.
Proof.
  unfold loaded_meta.
  rewrite (get_filter_keys (fun key => negb (Py.startswith key "_"))).
  destruct (negb _); [auto|discriminate].
Qed.

Lemma loaded_meta_keys (m : dict KeyMeta) :
  incl (skeys (loaded_meta m)) (skeys m).
Proof.
  intros k Hk; apply (in_keys_get _ String.eqb_spec) in Hk as [e He].
  apply loaded_meta_get in He.
  exact (get_in_keys _ String.eqb_spec _ _ _ He).
Qed.

Lemma prologue_meta (s : @Run G) :
  self_meta (prologue fitness s) =
  match state_f s with Some (m, _) => loaded_meta m | None => self_meta s end.
Proof.
  unfold prologue, load, set_locals; cbn.
  destruct (state_f s) as [[m sd]|]; destruct (_ =? -1); reflexivity.
Qed.

Lemma prologue_hyp (s : @Run G) :
  self_hyp (prologue fitness s) =
  match hyp_f s with Some h => h | None => self_hyp s end.
Proof.
  unfold prologue, load, set_locals; cbn.
  destruct (state_f s) as [[m sd]|]; destruct (_ =? -1); reflexivity.
Qed.

Lemma prologue_patience (s : @Run G) :
  self_patience (prologue fitness s) = self_patience s.
Proof.
  unfold prologue, load, set_locals; cbn.
  destruct (state_f s) as [[m sd]|]; destruct (_ =? -1); reflexivity.
Qed.

(** ** Invariants of a run *)

Lemma body_keys_in_hyp (s s' : Run) :
  keys_in_hyp s -> body fitness mutation s = Return s' -> keys_in_hyp s'.
Proof.
  unfold keys_in_hyp; intros H Hbody k Hk.
  rewrite (body_hyp_keys _ _ Hbody).
  apply H, (body_meta_keys _ _ Hbody), Hk.
Qed.

Lemma body_from_META (s s' : Run) :
  meta_from_META s -> body fitness mutation s = Return s' -> meta_from_META s'.
Proof.
  intros H Hbody k e' He'.
  destruct (body_meta _ _ _ _ Hbody He') as (e & He & Hp & _).
  unfold from_META; rewrite Hp; exact (H _ _ He).
Qed.

Lemma body_patience_within (P : Q) (s s' : Run) :
  (0 < P)%Q ->
  self_patience s = P /\ patience_within P (self_meta s) ->
  body fitness mutation s = Return s' ->
  self_patience s' = P /\ patience_within P (self_meta s').
Proof.
  intros HP [HsP H] Hbody; split.
  - rewrite (body_patience _ _ Hbody); exact HsP.
  - intros k e' He'.
    destruct (body_meta _ _ _ _ Hbody He') as (e & He & _ & [->|[Hle Hpos]]).
    + exact (H _ _ He).
    + rewrite HsP in Hle, Hpos; split; auto.
Qed.

(** A freshly built engine on a fresh project directory. *)
Lemma init_from_META (hyp : dict Q) (P : Q) (now : Z) (result : Result.t)
  (g : G) :
  meta_from_META (prologue fitness (init hyp P now result None None g)).
Proof.
  intros k e; rewrite prologue_meta; cbn; intros H.
  apply set_meta_from_META in H; tauto.
Qed.

(** In every state of a run on a project directory that is fresh or holds
    a checkpoint whose bounds and paces are rows of [META], the bounds and
    pace of every active key are a row of [META]. *)
Lemma run_from_META (hyp : dict Q) (P : Q) (now : Z) (result : Result.t)
  (hyp_file : option (dict Q)) (state_file : option (dict KeyMeta * Z))
  (g : G) (s : Run) :
  checkpoint (fun _ m => forall k e, sget m k = Some e -> from_META e)
    hyp_file state_file ->
  reaches fitness epochs mutation
    (prologue fitness (init hyp P now result hyp_file state_file g)) s ->
  meta_from_META s.
Proof.
  intros Hfiles Hreach.
  apply (reaches_invariant _ body_from_META _ _ Hreach).
  intros k e; rewrite prologue_meta; cbn.
  destruct hyp_file as [h|], state_file as [[m sd]|]; cbn in Hfiles;
    try contradiction.
  - intros He; apply (Hfiles k e), loaded_meta_get, He.
  - intros He; apply set_meta_from_META in He; tauto.
Qed.

(** ** Active keys are hyperparameters (C9) *)

(** C9. On a project directory that is fresh or holds a checkpoint whose
    metadata keys are keys of its mapping: [set_meta] registers only keys
    of the mapping; in every state of the run every key of the active
    metadata is a key of the hyperparameter mapping; and an iteration of
    the loop only removes metadata keys, it never adds one. *)
Theorem active_keys_are_hyperparameters (hyp : dict Q) (P : Q) (now : Z)
  (result : Result.t) (hyp_file : option (dict Q))
  (state_file : option (dict KeyMeta * Z)) (g : G) :
  checkpoint (fun h m => incl (skeys m) (skeys h)) hyp_file state_file ->
  incl (skeys (set_meta hyp P)) (skeys hyp) /\
  forall s : Run,
    reaches fitness epochs mutation
      (prologue fitness (init hyp P now result hyp_file state_file g)) s ->
    keys_in_hyp s /\
    forall s' : Run,
      body fitness mutation s = Return s' ->
      incl (skeys (self_meta s')) (skeys (self_meta s)) /\ keys_in_hyp s'.
Proof.
  intros Hfiles; split; [apply set_meta_keys|].
  intros s Hreach.
  assert (Hs : keys_in_hyp s).
  { apply (reaches_invariant keys_in_hyp body_keys_in_hyp _ _ Hreach).
    unfold keys_in_hyp; rewrite prologue_meta, prologue_hyp; cbn.
    destruct hyp_file as [h|], state_file as [[m sd]|]; cbn in Hfiles;
      try contradiction; [|apply set_meta_keys].
    intros k Hk; apply Hfiles, loaded_meta_keys, Hk. }
  split; [exact Hs|].
  intros s' Hbody; split.
  - apply body_meta_keys, Hbody.
  - eapply body_keys_in_hyp; eauto.
Qed.

(** ** Patience (C3) *)

(** The patience update of an evaluated trial: [+1] on an improvement,
    [-0.5] otherwise; the key leaves the metadata when the result is not
    positive, and otherwise stores it clamped to twice the initial
    patience. *)
Lemma trial_patience (s s' : Run) (row : Trial) (e : KeyMeta) :
  body fitness mutation s = Return s' ->
  self_result s' = self_result s ++ [row] ->
  sget (self_meta s) (t_hyp row) = Some e ->
  let patience' :=
    (patience e
     + (if Py.ltb 0 (t_fitness row - best_fit s) then 1 else - (1 # 2)))%Q in
  ((patience' <= 0)%Q -> ~ In (t_hyp row) (skeys (self_meta s'))) /\
  ((0 < patience')%Q ->
   exists e', sget (self_meta s') (t_hyp row) = Some e' /\
     patience e' = Py.min2 (2 * self_patience s) patience').
Proof.
  intros Hbody Hrow He.
  apply body_return in Hbody as (c & Hc & [[_ ->]|[_ ->]]).
  - cbn in Hrow; exfalso; exact (app_one_neq _ _ Hrow).
  - apply select_inr in Hc as (Hget & _).
    unfold trial in *.
    destruct (draw_int _ _ _) as [step g3]; cbn in Hrow.
    apply app_inj_tail in Hrow as [_ <-]; cbn in *.
    rewrite Hget in He; injection He as <-.
    match goal with |- context [Py.leb ?p 0] => set (p' := p) end.
    destruct (leb_spec p' 0) as [Hle|Hgt]; split.
    + intros _ Hin; apply (keys_pop _ String.eqb_spec) in Hin; tauto.
    + intros Hpos; lra.
    + intros Hle; contradiction.
    + intros _; eexists; split;
        [apply (get_set_eq _ String.eqb_spec)|reflexivity].
Qed.

(** C3. With a positive initial patience, on a project directory that is
    fresh or holds a checkpoint of a run with the same initial patience:
    in every state of the run the stored patience of every active key is
    positive and at most twice the initial patience; and a trial that
    leaves the patience of its key ([+1] on an improvement, [-0.5]
    otherwise) at or below zero removes the key in that same iteration,
    while one that leaves it positive keeps the key with that patience
    clamped to twice the initial patience. *)
Theorem patience_bounded_and_pruned (hyp : dict Q) (P : Q) (now : Z)
  (result : Result.t) (hyp_file : option (dict Q))
  (state_file : option (dict KeyMeta * Z)) (g : G) (s : Run) :
  (0 < P)%Q ->
  checkpoint (fun _ m => patience_within P m) hyp_file state_file ->
  reaches fitness epochs mutation
    (prologue fitness (init hyp P now result hyp_file state_file g)) s ->
  patience_within P (self_meta s) /\
  forall (s' : Run) (row : Trial) (e : KeyMeta),
    body fitness mutation s = Return s' ->
    self_result s' = self_result s ++ [row] ->
    sget (self_meta s) (t_hyp row) = Some e ->
    let patience' :=
      (patience e
       + (if Py.ltb 0 (t_fitness row - best_fit s) then 1 else - (1 # 2)))%Q in
    ((patience' <= 0)%Q -> ~ In (t_hyp row) (skeys (self_meta s'))) /\
    ((0 < patience')%Q ->
     exists e', sget (self_meta s') (t_hyp row) = Some e' /\
       patience e' = Py.min2 (2 * P) patience').
Proof.
  intros HP Hfiles Hreach.
  assert (Hs : self_patience s = P /\ patience_within P (self_meta s)).
  { apply (reaches_invariant _
             (fun s1 s2 => body_patience_within P s1 s2 HP) _ _ Hreach).
    rewrite prologue_patience, prologue_meta; cbn; split; [reflexivity|].
    destruct hyp_file as [h|], state_file as [[m sd]|]; cbn in Hfiles;
      try contradiction.
    - intros k e He; apply (Hfiles k e), loaded_meta_get, He.
    - intros k e He; apply set_meta_from_META in He as [_ ->]; lra. }
  destruct Hs as [HsP Hs]; split; [exact Hs|].
  intros s' row e Hbody Hrow He; rewrite <- HsP.
  exact (trial_patience _ _ _ _ Hbody Hrow He).
Qed.

(** ** Cancelled direction (C5) *)

(** C5. When the direction resolved for the selected key is 0 -- which
    happens only when its directional bias and its forced direction are
    both non-zero and cancel -- the iteration completes without evaluating
    the fitness function, without appending a trial record and without
    incrementing the epoch counter (the seed still advances), and the key
    is absent from the saved metadata and from the active metadata from
    then on. *)
Theorem cancelled_direction_prunes (s : Run) (c : Choice) :
  select s = inr c ->
  c_momentum c = 0 ->
  (c_forced c <> 0 /\ m_greed (c_meta c) + c_forced c = 0) /\
  exists s' : Run,
    body fitness mutation s = Return s' /\
    evals s' = evals s /\
    self_result s' = self_result s /\
    epoch s' = epoch s /\
    self_seed s' = self_seed s + 1 /\
    state_f s' = Some (self_meta s', self_seed s') /\
    ~ In (c_key c) (skeys (self_meta s')) /\
    forall s'' : Run,
      reaches fitness epochs mutation s' s'' ->
      ~ In (c_key c) (skeys (self_meta s'')).
Proof.
  intros Hc Hzero; split.
  - apply select_inr in Hc as (_ & _ & _ & _ & _ & Hmom).
    destruct (Z.eqb_spec (m_greed (c_meta c)) 0) as [Hg|Hg];
      destruct (Z.eqb_spec (c_forced c) 0) as [Hf|Hf]; cbn in Hmom; lia.
  - exists (prune s c).
    assert (Hgone : ~ In (c_key c) (skeys (self_meta (prune s c)))).
    { cbn; intros Hin; apply (keys_pop _ String.eqb_spec) in Hin; tauto. }
    rewrite (body_select _ _ Hc (or_introl Hzero)), Hzero; cbn [Z.eqb].
    repeat split; [exact Hgone|].
    intros s'' Hreach.
    apply (reaches_invariant
             (fun x => ~ In (c_key c) (skeys (self_meta x)))) in Hreach;
      [exact Hreach| |exact Hgone].
    intros x x' Hx Hbody Hin; apply Hx, (body_meta_keys _ _ Hbody), Hin.
Qed.

(** ** Termination (C10) *)

(** An iteration that completes either counts one more epoch and does not
    grow the metadata, or leaves the epoch counter and shrinks the
    metadata. *)
Lemma body_progress (s s' : Run) :
  body fitness mutation s = Return s' ->
  (epoch s' = epoch s + 1 /\
   (List.length (self_meta s') <= List.length (self_meta s))%nat) \/
  (epoch s' = epoch s /\
   (List.length (self_meta s') < List.length (self_meta s))%nat).
Proof.
  intros Hbody.
  apply body_return in Hbody as (c & Hc & [[_ ->]|[_ ->]]);
    apply select_inr in Hc as (Hget & _);
    apply (get_in_keys _ String.eqb_spec) in Hget.
  - right; cbn; split; [reflexivity|].
    apply (length_pop_lt _ String.eqb_spec), Hget.
  - left; unfold trial; destruct (draw_int _ _ _) as [step g3]; cbn.
    split; [reflexivity|].
    match goal with |- context [sset ?m ?k ?v] =>
      pose proof (length_set_present _ String.eqb_spec m k v Hget) as Hlen;
      pose proof (length_pop_le String.eqb (sset m k v) k) as Hpop
    end.
    destruct (Py.leb _ _); lia.
Qed.

Lemma body_measure (s s' : Run) :
  loop_cond epochs s = true ->
  body fitness mutation s = Return s' ->
  (measure epochs s' < measure epochs s)%nat.
Proof.
  unfold loop_cond, measure; intros Hcond Hbody.
  apply andb_prop in Hcond as [Hlt _]; apply Z.ltb_lt in Hlt.
  destruct (body_progress _ _ Hbody) as [[-> Hlen]|[-> Hlen]]; lia.
Qed.

(** With fuel for [measure] iterations the loop runs to its end: it
    returns a state in which the loop condition fails, or it raises. *)
Lemma while_enough (fuel : nat) (s : Run) :
  (measure epochs s <= fuel)%nat ->
  exists o, while fitness epochs mutation fuel s = Some o /\
    match o with
    | Return s' =>
        loop_cond epochs s' = false /\ reaches fitness epochs mutation s s'
    | Raise _ _ => True
    end.
Proof.
  revert s; induction fuel as [|fuel IH]; intros s Hfuel; cbn.
  - destruct (loop_cond epochs s) eqn:Hcond.
    + exfalso; unfold loop_cond, measure in *.
      apply andb_prop in Hcond as [Hlt _]; apply Z.ltb_lt in Hlt; lia.
    + eexists; split; [reflexivity|split; [exact Hcond|constructor]].
  - destruct (loop_cond epochs s) eqn:Hcond.
    + destruct (body fitness mutation s) as [s'|e s'] eqn:Hbody.
      * pose proof (body_measure _ _ Hcond Hbody) as Hlt.
        destruct (IH s' ltac:(lia)) as (o & Ho & Hend).
        exists o; split; [exact Ho|].
        destruct o as [s''|]; [|exact I].
        destruct Hend as [Hend Hreach]; split; [exact Hend|].
        eapply reaches_next; eauto.
      * eexists; split; [reflexivity|exact I].
    + eexists; split; [reflexivity|split; [exact Hcond|constructor]].
Qed.

Lemma while_fuel (fuel fuel' : nat) (s : Run) :
  (measure epochs s <= fuel)%nat ->
  (measure epochs s <= fuel')%nat ->
  while fitness epochs mutation fuel s = while fitness epochs mutation fuel' s.
Proof.
  revert fuel' s; induction fuel as [|fuel IH]; intros fuel' s H H';
    destruct fuel' as [|fuel']; cbn; try reflexivity;
    destruct (loop_cond epochs s) eqn:Hcond; try reflexivity;
    try (exfalso; unfold loop_cond, measure in *;
         apply andb_prop in Hcond as [Hlt _]; apply Z.ltb_lt in Hlt; lia).
  destruct (body fitness mutation s) as [s'|e s'] eqn:Hbody; [|reflexivity].
  pose proof (body_measure _ _ Hcond Hbody) as Hlt.
  apply IH; lia.
Qed.

(** C10. For every fitness function, budget and state: an iteration that
    completes either increments the epoch counter without growing the
    metadata or keeps the counter and strictly shrinks the metadata; so
    the loop, given fuel for [measure] iterations or more, ends -- in a
    state where [epoch < epochs and self.meta] is false, or by raising --
    and [__call__] yields an outcome. *)
Theorem search_loop_terminates (s : Run) :
  (forall s' : Run,
     body fitness mutation s = Return s' ->
     (epoch s' = epoch s + 1 /\
      (List.length (self_meta s') <= List.length (self_meta s))%nat) \/
     (epoch s' = epoch s /\
      (List.length (self_meta s') < List.length (self_meta s))%nat)) /\
  (exists o : Outcome,
     (forall fuel : nat,
        (measure epochs s <= fuel)%nat ->
        while fitness epochs mutation fuel s = Some o) /\
     match o with
     | Return s' => loop_cond epochs s' = false
     | Raise _ _ => True
     end) /\
  (exists o : Outcome, call fitness epochs mutation s = Some o).
Proof.
  split; [intros s'; apply body_progress|split].
  - destruct (while_enough (measure epochs s) s (Nat.le_refl _))
      as (o & Ho & Hend).
    exists o; split.
    + intros fuel Hfuel; rewrite <- Ho; apply while_fuel; [exact Hfuel|lia].
    + destruct o; tauto.
  - unfold call.
    destruct (while_enough (measure epochs (prologue fitness s))
                (prologue fitness s) (Nat.le_refl _)) as (o & Ho & _).
    exists o; exact Ho.
Qed.

(** ** A budget already spent (C7) *)

Lemma while_done (fuel : nat) (s : Run) :
  loop_cond epochs s = false ->
  while fitness epochs mutation fuel s = Some (Return s).
Proof. intros H; destruct fuel; cbn; rewrite H; reflexivity. Qed.

(** C7. With a budget equal to the number of epochs already completed
    (the length of the trial log minus one, the baseline row being epoch
    0), [__call__] evaluates nothing, appends no trial record, and returns
    the mapping of the last checkpoint (the constructor's when there is no
    checkpoint), which it saves again unchanged. *)
Theorem spent_budget_is_idempotent (s : @Run G) :
  0 <= epochs ->
  epochs = Result.len (self_result s) - 1 ->
  exists s' : Run,
    call fitness epochs mutation s = Some (Return s') /\
    evals s' = evals s /\
    self_result s' = self_result s /\
    epoch s' = epochs /\
    self_hyp s' = match hyp_f s with Some h => h | None => self_hyp s end /\
    hyp_f s' = Some (self_hyp s').
Proof.
  intros Hpos Hlen; unfold call.
  set (s0 := prologue fitness s).
  assert (Hs0 : s0 = save (load (set_locals s epochs
                                   (Result.fitness_max (self_result s))))).
  { unfold s0, prologue; rewrite <- Hlen.
    destruct (Z.eqb_spec epochs (-1)); [lia|reflexivity]. }
  exists s0; split.
  - apply while_done; unfold loop_cond.
    rewrite Hs0; unfold load; cbn.
    destruct (state_f s) as [[m sd]|]; cbn; rewrite Z.ltb_irrefl; reflexivity.
  - rewrite Hs0; unfold load; cbn.
    destruct (state_f s) as [[m sd]|]; cbn; auto.
Qed.

(** ** Resumption is deterministic (C6) *)

Lemma same_run_refl (s : @Run G) : same_run s s.
Proof. destruct s; reflexivity. Qed.

Lemma same_run_fields (s1 s2 : @Run G) :
  same_run s1 s2 ->
  self_result s1 = self_result s2 /\ evals s1 = evals s2 /\
  self_hyp s1 = self_hyp s2 /\ self_meta s1 = self_meta s2 /\
  self_seed s1 = self_seed s2 /\ epoch s1 = epoch s2.
Proof. intros <-; destruct s1; cbn; auto 10. Qed.

(** An iteration reads the generator only after it has reseeded it. *)
Lemma body_same_run (s1 s2 : Run) :
  same_run s1 s2 ->
  body fitness mutation s1 = body fitness mutation s2 \/
  (body fitness mutation s1 =
     Raise ValueError (set_generator s1 (self_seed s1 + 1) (generator s1)) /\
   body fitness mutation s2 =
     Raise ValueError (set_generator s2 (self_seed s2 + 1) (generator s2))).
Proof.
  intros <-; destruct s1; unfold body, select; cbn.
  destruct (np_random_seed _); [left; reflexivity|right; split; reflexivity].
Qed.

Lemma while_same_run (fuel : nat) (s1 s2 : Run) :
  same_run s1 s2 ->
  match while fitness epochs mutation fuel s1,
        while fitness epochs mutation fuel s2 with
  | Some o1, Some o2 =>
      raised o1 = raised o2 /\ same_run (state_of o1) (state_of o2)
  | None, None => True
  | _, _ => False
  end.
Proof.
  revert s1 s2; induction fuel as [|fuel IH]; intros s1 s2 Hsame;
    assert (Hcond : loop_cond epochs s1 = loop_cond epochs s2)
      by (destruct Hsame, s1; reflexivity);
    cbn; rewrite <- Hcond; destruct (loop_cond epochs s1); cbn; auto.
  destruct (body_same_run _ _ Hsame) as [<-|[-> ->]].
  - destruct (body fitness mutation s1) as [s'|e s'].
    + apply IH, same_run_refl.
    + cbn; split; [reflexivity|apply same_run_refl].
  - cbn; split; [reflexivity|].
    destruct Hsame, s1; reflexivity.
Qed.

(** C6. Two engines built at different times (different clock-derived
    seeds, generator states and constructor mappings) over the same
    checkpoint and trial log, with the same initial patience, and called
    with the same fitness function, budget and mutation fraction, end the
    same way with the same trial records (and the same evaluations,
    mapping, metadata and seed).  The reason: an iteration that completes
    has advanced the seed by one, and its result does not depend on the
    state the generator was in when it began. *)
Theorem resumed_runs_agree (P : Q) (result : Result.t) (h : dict Q)
  (m : dict KeyMeta) (sd : Z) (hyp1 hyp2 : dict Q) (now1 now2 : Z)
  (g1 g2 : G) :
  (forall s s' : Run,
     body fitness mutation s = Return s' ->
     self_seed s' = self_seed s + 1 /\
     forall g : G,
       body fitness mutation (set_generator s (self_seed s) g) = Return s') /\
  exists o1 o2 : Outcome,
    call fitness epochs mutation
      (init hyp1 P now1 result (Some h) (Some (m, sd)) g1) = Some o1 /\
    call fitness epochs mutation
      (init hyp2 P now2 result (Some h) (Some (m, sd)) g2) = Some o2 /\
    raised o1 = raised o2 /\
    self_result (state_of o1) = self_result (state_of o2) /\
    evals (state_of o1) = evals (state_of o2) /\
    self_hyp (state_of o1) = self_hyp (state_of o2) /\
    self_meta (state_of o1) = self_meta (state_of o2) /\
    self_seed (state_of o1) = self_seed (state_of o2).
Proof.
  split.
  - intros s s' Hbody; split.
    + apply body_return in Hbody as (c & _ & [[_ ->]|[_ ->]]); [reflexivity|].
      unfold trial; destruct (draw_int _ _ _); reflexivity.
    + intros g.
      assert (Hsame : same_run s (set_generator s (self_seed s) g))
        by (destruct s; reflexivity).
      destruct (body_same_run _ _ Hsame) as [<-|[H _]]; congruence.
  - unfold call.
    set (s1 := prologue fitness (init hyp1 P now1 result (Some h) (Some (m, sd)) g1)).
    set (s2 := prologue fitness (init hyp2 P now2 result (Some h) (Some (m, sd)) g2)).
    assert (Hsame : same_run s1 s2).
    { unfold s1, s2, prologue, same_run; cbn.
      destruct (_ =? -1); reflexivity. }
    assert (Hfuel : measure epochs s1 = measure epochs s2).
    { unfold measure; destruct (same_run_fields _ _ Hsame)
        as (_ & _ & _ & -> & _ & ->); reflexivity. }
    rewrite Hfuel.
    pose proof (while_same_run (measure epochs s2) _ _ Hsame) as H.
    destruct (while fitness epochs mutation (measure epochs s2) s1) as [o1|] eqn:H1;
      destruct (while fitness epochs mutation (measure epochs s2) s2) as [o2|] eqn:H2;
      try contradiction.
    + exists o1, o2; destruct H as [Hr Hs].
      apply same_run_fields in Hs; tauto.
    + exfalso.
      destruct (while_enough _ s2 (Nat.le_refl _)) as (o & Ho & _); congruence.
Qed.

(** ** The two passes of the metadata builder *)

Lemma fold_left_related {A A' B : Type} (f : A -> B -> A) (f' : A' -> B -> A')
  (R : A -> A' -> Prop) (l : list B) :
  (forall a a' b, R a a' -> R (f a b) (f' a' b)) ->
  forall a a', R a a' -> R (fold_left f l a) (fold_left f' l a').
Proof.
  intros Hf; induction l as [|b l IH]; cbn; intros a a' Ha; [exact Ha|].
  apply IH, Hf, Ha.
Qed.

Section SuffixPass.

Variable general_table : dict Profile.
Variable P : Q.
Variable suffix : string.

(** The inner loop of the suffix pass, over the keys [l] of the mapping. *)
Let inner (l : list string) (meta : dict KeyMeta) : dict KeyMeta :=
  fold_left
    (fun meta key =>
       if Py.endswith key ("_" ++ suffix) then
         match sget general_table suffix with
         | Some p => sset meta key (with_default_state p P)
         | None => meta
         end
       else meta)
    l meta.

Lemma inner_other (l : list string) (meta : dict KeyMeta) (key : string) :
  Py.endswith key ("_" ++ suffix) = false \/ sget general_table suffix = None ->
  sget (inner l meta) key = sget meta key.
Proof.
  intros Hkey; unfold inner.
  apply (fold_left_invariant _ (fun x => sget x key = sget meta key));
    [|reflexivity].
  intros x k Hx _.
  destruct (Py.endswith k ("_" ++ suffix)) eqn:Hk; [|exact Hx].
  destruct (sget general_table suffix) as [p|]; [|exact Hx].
  rewrite (get_set_ne _ String.eqb_spec); [exact Hx|].
  intros ->; destruct Hkey; congruence.
Qed.

Lemma inner_stable (l : list string) (meta : dict KeyMeta) (key : string)
  (p : Profile) :
  sget general_table suffix = Some p ->
  sget meta key = Some (with_default_state p P) ->
  sget (inner l meta) key = Some (with_default_state p P).
Proof.
  intros Hp Hkey; unfold inner.
  apply (fold_left_invariant _
           (fun x => sget x key = Some (with_default_state p P)));
    [|exact Hkey].
  intros x k Hx _.
  destruct (Py.endswith k ("_" ++ suffix)); [|exact Hx].
  rewrite Hp.
  destruct (String.eqb_spec key k) as [->|N].
  - apply (get_set_eq _ String.eqb_spec).
  - rewrite (get_set_ne _ String.eqb_spec); auto.
Qed.

Lemma inner_match (l : list string) (meta : dict KeyMeta) (key : string)
  (p : Profile) :
  In key l ->
  Py.endswith key ("_" ++ suffix) = true ->
  sget general_table suffix = Some p ->
  sget (inner l meta) key = Some (with_default_state p P).
Proof.
  intros Hin Hkey Hp; revert meta.
  induction l as [|k l IH]; intros meta; [destruct Hin|].
  destruct (String.eqb_spec k key) as [->|N].
  - change (inner (key :: l) meta) with
      (inner l (if Py.endswith key ("_" ++ suffix) then
                  match sget general_table suffix with
                  | Some p => sset meta key (with_default_state p P)
                  | None => meta
                  end
                else meta)).
    rewrite Hkey, Hp.
    apply inner_stable; [exact Hp|apply (get_set_eq _ String.eqb_spec)].
  - destruct Hin as [E|Hin]; [contradiction|].
    apply (IH Hin).
Qed.

End SuffixPass.

(** The record of a key of the mapping after the suffix pass. *)
Lemma suffix_pass_get (table : Table) (hyp : dict Q) (P : Q) (key : string) :
  In key (skeys hyp) ->
  forall meta0 : dict KeyMeta,
  sget
    (fold_left
       (fun meta suffix =>
          fold_left
            (fun meta key =>
               if Py.endswith key ("_" ++ suffix) then
                 match sget (general table) suffix with
                 | Some p => sset meta key (with_default_state p P)
                 | None => meta
                 end
               else meta)
            (skeys hyp) meta)
       (skeys (general table)) meta0) key =
  match suffix_profile (general table) key with
  | Some p => Some (with_default_state p P)
  | None => sget meta0 key
  end.
Proof.
  intros Hin meta0; unfold suffix_profile.
  apply (fold_left_related _ _
           (fun meta found =>
              sget meta key =
              match found with
              | Some p => Some (with_default_state p P)
              | None => sget meta0 key
              end)); [|reflexivity].
  intros meta found suffix Hrel.
  pose proof (inner_match (general table) P suffix (skeys hyp) meta key) as Hm.
  pose proof (inner_other (general table) P suffix (skeys hyp) meta key) as Ho.
  destruct (Py.endswith key ("_" ++ suffix)) eqn:Hkey.
  - destruct (sget (general table) suffix) as [p|] eqn:Hp.
    + exact (Hm p Hin eq_refl eq_refl).
    + rewrite <- Hrel; apply Ho; auto.
  - rewrite <- Hrel; apply Ho; auto.
Qed.

Lemma set_meta_from_nodup (table : Table) (hyp : dict Q) (P : Q) :
  NoDup (skeys (set_meta_from table hyp P)).
Proof.
  unfold set_meta_from.
  apply (fold_left_invariant _ (fun meta => NoDup (skeys meta))).
  - intros meta suffix Hmeta _.
    apply (fold_left_invariant _ (fun meta => NoDup (skeys meta)));
      [|exact Hmeta].
    intros meta' key Hmeta' _.
    destruct (Py.endswith _ _); [|exact Hmeta'].
    destruct (sget _ suffix); [|exact Hmeta'].
    apply (nodup_keys_set _ String.eqb_spec), Hmeta'.
  - apply (fold_left_invariant _ (fun meta => NoDup (skeys meta)));
      [|constructor].
    intros meta key Hmeta _.
    destruct (scontains hyp key); [|exact Hmeta].
    destruct (sget _ key); [|exact Hmeta].
    apply (nodup_keys_set _ String.eqb_spec), Hmeta.
Qed.

End EngineFacts.

(** * The properties on the concrete run *)

Lemma trial_accepts_or_rejects_witness :
  body Demo.fitness Demo.mutation Demo.start = Return Demo.after1 /\
  self_result Demo.after1 = self_result Demo.start ++ [Demo.row1] /\
  self_hyp Demo.after1 = sset (self_hyp Demo.start) "x_depth"%string 1%Q /\
  best_fit Demo.after1 = (- 2609 # 100)%Q.
Proof.
  assert (Hbody : body Demo.fitness Demo.mutation Demo.start = Return Demo.after1)
    by (vm_compute; reflexivity).
  assert (Hrow : self_result Demo.after1 = self_result Demo.start ++ [Demo.row1])
    by (vm_compute; reflexivity).
  split; [exact Hbody|split; [exact Hrow|]].
  destruct (trial_accepts_or_rejects Demo.fitness Demo.mutation
              Demo.start Demo.after1 Demo.row1 Hbody Hrow) as (_ & Haccept & _).
  apply Haccept; vm_compute; reflexivity.
Defined.

Lemma pinned_key_direction_witness :
  select Demo.at_lower = inr Demo.choice_lower /\
  c_momentum Demo.choice_lower = 1 /\
  select Demo.at_upper = inr Demo.choice_upper /\
  c_momentum Demo.choice_upper = -1.
Proof.
  assert (Hlower : select Demo.at_lower = inr Demo.choice_lower)
    by (vm_compute; reflexivity).
  assert (Hupper : select Demo.at_upper = inr Demo.choice_upper)
    by (vm_compute; reflexivity).
  split; [exact Hlower|split; [|split; [exact Hupper|]]].
  - apply (pinned_key_direction Demo.at_lower Demo.choice_lower
             (init_from_META Demo.fitness 0 _ _ _ _ _) Hlower eq_refl).
    reflexivity.
  - apply (pinned_key_direction Demo.at_upper Demo.choice_upper
             (init_from_META Demo.fitness 0 _ _ _ _ _) Hupper eq_refl).
    reflexivity.
Defined.

Lemma patience_bounded_and_pruned_witness :
  (0 < 2)%Q /\
  reaches Demo.fitness 5 Demo.mutation Demo.start Demo.after2 /\
  patience_within 2 (self_meta Demo.after2) /\
  exists e' : KeyMeta,
    sget (self_meta Demo.after2) "gb_kernel"%string = Some e' /\
    patience e' = Py.min2 (2 * 2) (2 + - (1 # 2))%Q.
Proof.
  assert (Hreach : reaches Demo.fitness 5 Demo.mutation Demo.start Demo.after1).
  { eapply reaches_next; [| |apply reaches_here]; vm_compute; reflexivity. }
  assert (Hreach2 : reaches Demo.fitness 5 Demo.mutation Demo.start Demo.after2).
  { eapply reaches_trans; [exact Hreach|].
    eapply reaches_next; [| |apply reaches_here]; vm_compute; reflexivity. }
  split; [reflexivity|split; [exact Hreach2|split]].
  - apply (patience_bounded_and_pruned Demo.fitness 5 Demo.mutation Demo.hyp 2
             1700000000 [] None None 7 Demo.after2 eq_refl I Hreach2).
  - apply (proj2 (patience_bounded_and_pruned Demo.fitness 5 Demo.mutation
                    Demo.hyp 2 1700000000 [] None None 7 Demo.after1 eq_refl I
                    Hreach) Demo.after2 Demo.row2 (mkKeyMeta 1 99 2 2 0)).
    + vm_compute; reflexivity.
    + vm_compute; reflexivity.
    + vm_compute; reflexivity.
    + vm_compute; reflexivity.
Defined.

Lemma candidate_within_range_witness :
  select Demo.start = inr Demo.choice0 /\
  0 <= candidate 1 (-1) 1 9 <= 9 /\
  0 <= candidate 1 1 25 9 <= 9.
Proof.
  assert (Hc : select Demo.start = inr Demo.choice0) by (vm_compute; reflexivity).
  split; [exact Hc|].
  destruct (candidate_within_range Demo.fitness Demo.mutation Demo.start
              Demo.choice0 (init_from_META Demo.fitness 0 _ _ _ _ _) Hc)
    as (_ & Hany & _).
  split; [exact (Hany (-1) 1)|exact (Hany 1 25)].
Defined.

Lemma cancelled_direction_prunes_witness :
  select Demo.after2 = inr Demo.choice2 /\
  c_momentum Demo.choice2 = 0 /\
  exists s' : Run,
    body Demo.fitness Demo.mutation Demo.after2 = Return s' /\
    evals s' = evals Demo.after2 /\
    self_result s' = self_result Demo.after2 /\
    epoch s' = epoch Demo.after2 /\
    ~ In "x_depth"%string (skeys (self_meta s')).
Proof.
  assert (Hc : select Demo.after2 = inr Demo.choice2) by (vm_compute; reflexivity).
  split; [exact Hc|split; [reflexivity|]].
  destruct (cancelled_direction_prunes Demo.fitness 5 Demo.mutation Demo.after2
              Demo.choice2 Hc eq_refl)
    as (_ & s' & Hbody & Hevals & Hresult & Hepoch & _ & _ & Hgone & _).
  exists s'; auto.
Defined.

Lemma spent_budget_is_idempotent_witness :
  2 = Result.len (self_result Demo.resumed) - 1 /\
  exists s' : Run,
    call Demo.fitness 2 Demo.mutation Demo.resumed = Some (Return s') /\
    evals s' = evals Demo.resumed /\
    self_result s' = self_result Demo.resumed /\
    self_hyp s' = self_hyp Demo.after3.
Proof.
  split; [reflexivity|].
  destruct (spent_budget_is_idempotent Demo.fitness 2 Demo.mutation Demo.resumed
              ltac:(lia) eq_refl)
    as (s' & Hcall & Hevals & Hresult & _ & Hhyp & _).
  exists s'; repeat split; assumption.
Defined.

Lemma active_keys_are_hyperparameters_witness :
  keys_in_hyp Demo.start /\
  incl (skeys (self_meta Demo.after1)) (skeys (self_meta Demo.start)).
Proof.
  destruct (active_keys_are_hyperparameters Demo.fitness 5 Demo.mutation
              Demo.hyp 2 1700000000 [] None None 7 I) as [_ Hrun].
  destruct (Hrun Demo.start (reaches_here _ _ _ _)) as [Hkeys Hstep].
  split; [exact Hkeys|].
  assert (Hbody : body Demo.fitness Demo.mutation Demo.start = Return Demo.after1)
    by (vm_compute; reflexivity).
  exact (proj1 (Hstep Demo.after1 Hbody)).
Defined.

(** With the table as shipped, no exact-match name ends with a suffix of
    the general tier. *)
Lemma META_tiers_disjoint :
  Forall (fun key => suffix_profile (general META) key = None)
    (skeys (unique META)).
Proof. repeat constructor. Qed.

(** * The table as shipped *)

(** The record of a key of the mapping after the exact-name pass. *)
Lemma unique_pass_get (table : Table) (hyp : dict Q) (P : Q) (key : string)
  (exact : Profile) :
  In key (skeys hyp) ->
  sget (unique table) key = Some exact ->
  sget
    (fold_left
       (fun meta key =>
          if scontains hyp key then
            match sget (unique table) key with
            | Some p => sset meta key (with_default_state p P)
            | None => meta
            end
          else meta)
       (skeys (unique table)) []) key = Some (with_default_state exact P).
Proof.
  intros Hin Hexact.
  apply (contains_in_keys _ String.eqb_spec) in Hin.
  pose proof (get_in_keys _ String.eqb_spec _ _ _ Hexact) as Hkey.
  set (f := fun (meta : dict KeyMeta) (key : string) =>
              if scontains hyp key then
                match sget (unique table) key with
                | Some p => sset meta key (with_default_state p P)
                | None => meta
                end
              else meta).
  assert (Hstable : forall l meta,
            sget meta key = Some (with_default_state exact P) ->
            sget (fold_left f l meta) key = Some (with_default_state exact P)).
  { intros l meta Hmeta.
    apply (fold_left_invariant f
             (fun x => sget x key = Some (with_default_state exact P)));
      [|exact Hmeta].
    intros x k Hx _; unfold f.
    destruct (scontains hyp k); [|exact Hx].
    destruct (sget (unique table) k) as [p|] eqn:Hp; [|exact Hx].
    destruct (String.eqb_spec key k) as [E|N].
    - rewrite <- E in *; rewrite Hexact in Hp; injection Hp as <-.
      apply (get_set_eq _ String.eqb_spec).
    - rewrite (get_set_ne _ String.eqb_spec); auto. }
  generalize (@nil (string * KeyMeta)).
  induction (skeys (unique table)) as [|k l IH]; [destruct Hkey|].
  intros meta; cbn [fold_left].
  destruct (String.eqb_spec k key) as [E|N].
  - apply Hstable; unfold f; rewrite E, Hin, Hexact.
    apply (get_set_eq _ String.eqb_spec).
  - destruct Hkey as [E|Hkey]; [contradiction|]; apply (IH Hkey).
Qed.

(** With the table as shipped, every key of the mapping that has an
    exact-match entry carries the profile of that entry: none of these
    names ends with a suffix of the general tier. *)
Theorem exact_entries_as_shipped (hyp : dict Q) (P : Q) (key : string)
  (exact : Profile) :
  In key (skeys hyp) ->
  sget (unique META) key = Some exact ->
  suffix_profile (general META) key = None /\
  sget (set_meta hyp P) key = Some (with_default_state exact P).
Proof.
  intros Hin Hexact.
  assert (Hnone : suffix_profile (general META) key = None).
  { pose proof (get_in_keys _ String.eqb_spec _ _ _ Hexact) as Hkey.
    pose proof META_tiers_disjoint as Hall.
    rewrite Forall_forall in Hall; exact (Hall key Hkey). }
  split; [exact Hnone|].
  unfold set_meta, set_meta_from.
  rewrite (suffix_pass_get META hyp P key Hin), Hnone.
  apply unique_pass_get; assumption.
Qed.

Lemma exact_entries_as_shipped_witness :
  sget (set_meta Demo.hyp 2) "hsv_h"%string =
    Some (mkKeyMeta 0 (1 # 10) (1 # 100) 2 0).
Proof.
  apply (exact_entries_as_shipped Demo.hyp 2 "hsv_h"
           (mkProfile 0 (1 # 10) (1 # 100))).
  - cbn; auto.
  - reflexivity.
Defined.

(** ** Exact-match entries (C8) *)



(** * Further properties of the engine *)

Section MoreFacts.

Context {G : Type} {RNG : NumpyRandom G}.

Variable fitness : dict Q -> Z -> Q.
Variable epochs : Z.
Variable mutation : Q.

(** ** What [set_meta] registers *)

(** The records of the exact-name pass are exact-match rows. *)
Lemma unique_pass_entries (table : Table) (hyp : dict Q) (P : Q)
  (key : string) (e : KeyMeta) :
  sget
    (fold_left
       (fun meta key =>
          if scontains hyp key then
            match sget (unique table) key with
            | Some p => sset meta key (with_default_state p P)
            | None => meta
            end
          else meta)
       (skeys (unique table)) []) key = Some e ->
  exists p, sget (unique table) key = Some p /\ e = with_default_state p P.
Proof.
  revert key e; apply fold_left_invariant; [|cbn; discriminate].
  intros meta k Hmeta _.
  destruct (scontains hyp k); [|exact Hmeta].
  destruct (sget (unique table) k) as [p|] eqn:Hp; [|exact Hmeta].
  apply set_keeps; [exact Hmeta|]; eauto.
Qed.

(** [set_meta] as a lookup: a key is registered when it is a key of the
    mapping that ends with a suffix of the table (it then carries the
    profile of the last such suffix) or, failing that, has an exact-match
    entry; every record starts with the initial patience and bias 0.  A
    key that is not in the mapping, or matches neither tier, is not
    registered. *)
Theorem set_meta_lookup (table : Table) (hyp : dict Q) (P : Q) (key : string) :
  sget (set_meta_from table hyp P) key =
  if scontains hyp key then
    match suffix_profile (general table) key with
    | Some p => Some (with_default_state p P)
    | None =>
        match sget (unique table) key with
        | Some p => Some (with_default_state p P)
        | None => None
        end
    end
  else None.
Proof.
  destruct (scontains hyp key) eqn:Hin.
  - apply (contains_in_keys _ String.eqb_spec) in Hin.
    unfold set_meta_from; rewrite (suffix_pass_get table hyp P key Hin).
    destruct (suffix_profile (general table) key); [reflexivity|].
    destruct (sget (unique table) key) as [p|] eqn:Hp.
    + apply unique_pass_get; assumption.
    + match goal with |- ?x = None => destruct x as [e|] eqn:He end;
        [|reflexivity].
      apply unique_pass_entries in He as (p & Hp' & _); congruence.
  - destruct (sget (set_meta_from table hyp P) key) as [e|] eqn:He;
      [|reflexivity].
    apply set_meta_from_entries in He as [He _].
    apply (contains_in_keys _ String.eqb_spec) in He; congruence.
Qed.

(** ** The checkpoint *)

(** Saving and loading again gives back the mapping, the seed, and the
    record of every key that does not start with an underscore; a key that
    does is no longer in the metadata. *)
Lemma save_load (s : @Run G) :
  self_hyp (load (save s)) = self_hyp s /\
  self_seed (load (save s)) = self_seed s /\
  forall k : string,
    sget (self_meta (load (save s))) k =
    if Py.startswith k "_" then None else sget (self_meta s) k.
Proof.
  unfold load, save; cbn; repeat split.
  intros k; unfold loaded_meta.
  rewrite (get_filter_keys (fun key => negb (Py.startswith key "_"))).
  destruct (Py.startswith k "_"); reflexivity.
Qed.

Definition saved (s : @Run G) : Prop :=
  hyp_f s = Some (self_hyp s) /\ state_f s = Some (self_meta s, self_seed s).

Lemma prologue_saved (s : @Run G) : saved (prologue fitness s).
Proof. unfold prologue; split; reflexivity. Qed.

Lemma body_saved (s s' : Run) :
  body fitness mutation s = Return s' -> saved s'.
Proof.
  intros Hbody.
  apply body_return in Hbody as (c & _ & [[_ ->]|[_ ->]]).
  - split; reflexivity.
  - unfold trial; destruct (draw_int _ _ _); split; reflexivity.
Qed.

(** Between any two iterations of a call the two files are up to date:
    loading them gives back the value of every key of the mapping, the
    seed, and the record of every active key that does not start with an
    underscore (such a key is dropped from the metadata by the load). *)
Theorem checkpoint_restores_state (s0 s : @Run G) :
  reaches fitness epochs mutation (prologue fitness s0) s ->
  (forall k : string, sget (self_hyp (load s)) k = sget (self_hyp s) k) /\
  self_seed (load s) = self_seed s /\
  forall k : string,
    sget (self_meta (load s)) k =
    if Py.startswith k "_" then None else sget (self_meta s) k.
Proof.
  intros Hreach.
  assert (Hs : saved s).
  { apply (reaches_invariant fitness epochs mutation saved) in Hreach;
      [exact Hreach| |apply prologue_saved].
    intros x x' _ Hbody; exact (body_saved _ _ Hbody). }
  destruct Hs as [Hh Hm].
  unfold load; rewrite Hh, Hm; cbn.
  split; [reflexivity|split; [reflexivity|]].
  intros k; unfold loaded_meta.
  rewrite (get_filter_keys (fun key => negb (Py.startswith key "_"))).
  destruct (Py.startswith k "_"); reflexivity.
Qed.

(** ** Direction *)

(** The dictionary [{0: 1, range_: -1}], looked up at [previous]: the
    entry of [range_] is written last, so it also wins when [range_] is 0. *)
Lemma forced_eq (range_ previous : Z) :
  forced range_ previous =
  if previous =? range_ then -1 else if previous =? 0 then 1 else 0.
Proof.
  destruct (Z.eqb_spec previous range_) as [->|Hr]; [apply forced_upper|].
  destruct (Z.eqb_spec previous 0) as [->|H0].
  - apply forced_lower; congruence.
  - apply forced_inside; assumption.
Qed.

(** How the direction of the selected key is resolved from its bias (one
    of -1, 0, 1) and its position: at the upper limit it is -1 unless the
    bias is +1, which cancels it (this case also covers a range of 0); at
    the lower limit it is +1 unless the bias is -1, which cancels it;
    strictly inside it is the bias, or a draw among -1 and +1 when the
    bias is 0. *)
Theorem direction_follows_bias (s : Run) (c : Choice) :
  select s = inr c ->
  -1 <= m_greed (c_meta c) <= 1 ->
  (c_previous c = c_range c ->
   c_momentum c = if m_greed (c_meta c) =? 1 then 0 else -1) /\
  (c_previous c = 0 -> c_range c <> 0 ->
   c_momentum c = if m_greed (c_meta c) =? -1 then 0 else 1) /\
  (c_previous c <> 0 -> c_previous c <> c_range c ->
   if m_greed (c_meta c) =? 0
   then c_momentum c = -1 \/ c_momentum c = 1
   else c_momentum c = m_greed (c_meta c)).
Proof.
  intros Hc Hbias.
  apply select_inr in Hc as (_ & _ & _ & _ & Hforced & Hmom).
  rewrite forced_eq in Hforced.
  repeat split.
  - intros Hp; rewrite Hp, Z.eqb_refl in Hforced; rewrite Hforced in Hmom.
    destruct (Z.eqb_spec (m_greed (c_meta c)) 0) as [Hg|Hg];
      destruct (Z.eqb_spec (m_greed (c_meta c)) 1); cbn in Hmom; lia.
  - intros Hp Hr; rewrite Hp in Hforced.
    destruct (Z.eqb_spec 0 (c_range c)); [congruence|]; cbn in Hforced.
    rewrite Hforced in Hmom.
    destruct (Z.eqb_spec (m_greed (c_meta c)) 0) as [Hg|Hg];
      destruct (Z.eqb_spec (m_greed (c_meta c)) (-1)); cbn in Hmom; lia.
  - intros Hp Hr.
    destruct (Z.eqb_spec (c_previous c) (c_range c)); [contradiction|].
    destruct (Z.eqb_spec (c_previous c) 0); [contradiction|].
    rewrite Hforced in Hmom.
    destruct (Z.eqb_spec (m_greed (c_meta c)) 0) as [Hg|Hg]; cbn in Hmom;
      [exact Hmom|lia].
Qed.

(** ** The directional bias *)

Definition bias_bounded (meta : dict KeyMeta) : Prop :=
  forall k e, sget meta k = Some e -> -1 <= m_greed e <= 1.

Lemma sign_bounded (x : Q) : -1 <= Py.sign x <= 1.
Proof. unfold Py.sign; destruct (Qnum x); cbn; lia. Qed.

(** The bias a trial stores for its key, when the key stays active. *)
Lemma trial_bias (s s' : Run) (row : Trial) (e' : KeyMeta) :
  body fitness mutation s = Return s' ->
  self_result s' = self_result s ++ [row] ->
  sget (self_meta s') (t_hyp row) = Some e' ->
  m_greed e' = Py.sign (t_momentum row * (t_fitness row - best_fit s)).
Proof.
  intros Hbody Hrow He'.
  apply body_return in Hbody as (c & Hc & [[_ ->]|[_ ->]]).
  - cbn in Hrow; exfalso; exact (app_one_neq _ _ Hrow).
  - unfold trial in *.
    destruct (draw_int _ _ _) as [step g3]; cbn in Hrow, He'.
    apply app_inj_tail in Hrow as [_ <-]; cbn in *.
    destruct (Py.leb _ 0).
    + rewrite (get_pop_eq _ String.eqb_spec) in He'; discriminate.
    + rewrite (get_set_eq _ String.eqb_spec) in He'; injection He' as <-.
      reflexivity.
Qed.

Lemma body_bias_bounded (s s' : Run) :
  bias_bounded (self_meta s) ->
  body fitness mutation s = Return s' ->
  bias_bounded (self_meta s').
Proof.
  intros H Hbody k e' He'.
  pose proof Hbody as Hb.
  apply body_return in Hb as (c & Hc & [[_ ->]|[_ ->]]).
  - apply prune_meta in He' as [_ He']; exact (H _ _ He').
  - destruct (String.eqb_spec k (c_key c)) as [->|N].
    + unfold trial in He'.
      destruct (draw_int _ _ _) as [step g3]; cbn in He'.
      destruct (Py.leb _ 0).
      * rewrite (get_pop_eq _ String.eqb_spec) in He'; discriminate.
      * rewrite (get_set_eq _ String.eqb_spec) in He'; injection He' as <-.
        apply sign_bounded.
    + apply trial_meta in He' as [[_ He']|[E _]]; [|contradiction].
      exact (H _ _ He').
Qed.

(** In every state of a run on a project directory that is fresh or holds
    a checkpoint whose biases are -1, 0 or 1, the bias of every active key
    is -1, 0 or 1; and the bias an evaluated trial leaves for its key is
    the sign of the realized momentum times the improvement. *)
Theorem bias_is_a_sign (hyp : dict Q) (P : Q) (now : Z) (result : Result.t)
  (hyp_file : option (dict Q)) (state_file : option (dict KeyMeta * Z))
  (g : G) (s : Run) :
  checkpoint (fun _ m => bias_bounded m) hyp_file state_file ->
  reaches fitness epochs mutation
    (prologue fitness (init hyp P now result hyp_file state_file g)) s ->
  bias_bounded (self_meta s) /\
  forall (s' : Run) (row : Trial) (e' : KeyMeta),
    body fitness mutation s = Return s' ->
    self_result s' = self_result s ++ [row] ->
    sget (self_meta s') (t_hyp row) = Some e' ->
    m_greed e' = Py.sign (t_momentum row * (t_fitness row - best_fit s)).
Proof.
  intros Hfiles Hreach; split; [|intros s' row e'; apply trial_bias].
  apply (reaches_invariant fitness epochs mutation
           (fun x => bias_bounded (self_meta x))) in Hreach;
    [exact Hreach|exact body_bias_bounded|].
  intros k e; rewrite prologue_meta; unfold init; cbn [state_f self_meta].
  destruct hyp_file as [h|], state_file as [[m sd]|]; cbn in Hfiles;
    try contradiction.
  - intros He; apply (Hfiles k e), loaded_meta_get, He.
  - intros He; apply set_meta_from_entries in He as (_ & p & _ & ->).
    cbn; lia.
Qed.

(** ** The log and the locals of [__call__] *)

Lemma fitness_max_app (r : Result.t) (row : Trial) :
  r <> [] ->
  Result.fitness_max (r ++ [row]) =
  Py.qmax (Result.fitness_max r) (t_fitness row).
Proof.
  destruct r as [|row0 r]; [congruence|intros _; cbn].
  rewrite fold_left_app; reflexivity.
Qed.

Lemma improvement_is_max (best fit : Q) :
  (if Py.ltb 0 (fit - best) then fit else best) = Py.qmax best fit.
Proof.
  unfold Py.qmax.
  destruct (ltb_spec 0 (fit - best)), (ltb_spec best fit); try reflexivity; lra.
Qed.

(** The log is not empty, [epoch] is the index of its last row and
    [best_fit] is the maximum of its fitness column. *)
Definition log_consistent (s : @Run G) : Prop :=
  self_result s <> [] /\
  epoch s = Result.len (self_result s) - 1 /\
  best_fit s = Result.fitness_max (self_result s).

Lemma load_fields (s : @Run G) (a : Z) (b : Q) :
  self_result (load (set_locals s a b)) = self_result s /\
  evals (load (set_locals s a b)) = evals s /\
  epoch (load (set_locals s a b)) = a /\
  best_fit (load (set_locals s a b)) = b /\
  self_hyp (load (set_locals s a b)) =
    match hyp_f s with Some h => h | None => self_hyp s end.
Proof.
  unfold load, set_locals;
    cbn [self_result evals epoch best_fit self_hyp state_f hyp_f self_meta
         self_seed self_patience generator].
  destruct (state_f s) as [[m sd]|]; repeat split.
Qed.

Lemma len_zero (r : Result.t) : Result.len r - 1 = -1 <-> r = [].
Proof.
  unfold Result.len; destruct r; cbn [List.length]; split;
    intros H; try reflexivity; try discriminate; lia.
Qed.

(** The state in which the loop is entered: on an empty log the baseline
    row is appended after one evaluation of the loaded mapping; on any
    other log nothing is evaluated or appended. *)
Lemma prologue_fields (s : @Run G) :
  let loaded := match hyp_f s with Some h => h | None => self_hyp s end in
  (self_result s = [] /\
   self_result (prologue fitness s) =
     [mkTrial "baseline" 0 0 0 (fitness loaded 0)] /\
   evals (prologue fitness s) = evals s ++ [(loaded, 0)] /\
   epoch (prologue fitness s) = 0 /\
   best_fit (prologue fitness s) = fitness loaded 0) \/
  (self_result s <> [] /\
   self_result (prologue fitness s) = self_result s /\
   evals (prologue fitness s) = evals s /\
   epoch (prologue fitness s) = Result.len (self_result s) - 1 /\
   best_fit (prologue fitness s) = Result.fitness_max (self_result s)).
Proof.
  intros loaded; unfold prologue.
  destruct (load_fields s (Result.len (self_result s) - 1)
              (Result.fitness_max (self_result s)))
    as (Hr & He & Hep & Hb & Hh).
  destruct (Z.eqb_spec (Result.len (self_result s) - 1) (-1)) as [E|E].
  - left; apply len_zero in E.
    cbn [save self_result evals epoch best_fit].
    rewrite Hr, He, Hh, E; unfold Result.record; cbn [app].
    repeat split; reflexivity.
  - right; cbn [save self_result evals epoch best_fit].
    rewrite Hr, He, Hep, Hb; repeat split.
    intros H; apply len_zero in H; contradiction.
Qed.

Lemma prologue_log (s : @Run G) : log_consistent (prologue fitness s).
Proof.
  unfold log_consistent.
  destruct (prologue_fields s) as [(_ & -> & _ & -> & ->)|(H & -> & _ & -> & ->)].
  - repeat split; discriminate.
  - repeat split; exact H.
Qed.

Lemma body_log (s s' : Run) :
  log_consistent s ->
  body fitness mutation s = Return s' ->
  log_consistent s' /\
  exists rows,
    self_result s' = self_result s ++ rows /\
    evals s' = evals s ++
      map (fun row => (sset (self_hyp s) (t_hyp row) (t_current row), epoch s'))
        rows /\
    Z.of_nat (List.length rows) = epoch s' - epoch s.
Proof.
  intros (Hne & Hepoch & Hbest) Hbody.
  apply body_return in Hbody as (c & Hc & [[_ ->]|[_ ->]]).
  - split; [repeat split; assumption|].
    exists []; cbn; rewrite !app_nil_r; repeat split; lia.
  - unfold trial, log_consistent; destruct (draw_int _ _ _) as [step g3]; cbn.
    unfold Result.record; split; [repeat split|].
    + intros H; apply app_eq_nil in H as [_ H]; discriminate.
    + unfold Result.len in *; rewrite length_app; cbn; lia.
    + rewrite fitness_max_app by exact Hne.
      rewrite improvement_is_max, Hbest; reflexivity.
    + eexists [_]; cbn; repeat split; lia.
Qed.

(** In every state of a call, whatever the engine and the project
    directory it started from: the log is the log it found followed by
    one row per epoch counted since (a baseline row first when it found
    none), never rewritten; [epoch] is the index of the last row and
    [best_fit] the maximum of the fitness column -- the values a later
    call computes from the log when it resumes. *)
Theorem log_follows_run (s0 s : @Run G) :
  reaches fitness epochs mutation (prologue fitness s0) s ->
  epoch s = Result.len (self_result s) - 1 /\
  best_fit s = Result.fitness_max (self_result s) /\
  exists rows,
    self_result s = self_result s0 ++ rows /\
    Z.of_nat (List.length rows) = epoch s - (Result.len (self_result s0) - 1) /\
    List.length (evals s) = (List.length (evals s0) + List.length rows)%nat.
Proof.
  intros Hreach.
  apply (reaches_invariant fitness epochs mutation
           (fun x => log_consistent x /\
              exists rows,
                self_result x = self_result s0 ++ rows /\
                Z.of_nat (List.length rows) =
                  epoch x - (Result.len (self_result s0) - 1) /\
                List.length (evals x) =
                  (List.length (evals s0) + List.length rows)%nat)) in Hreach.
  - destruct Hreach as [(_ & He & Hb) Hrows]; auto.
  - intros x x' [Hlog (rows & Hrows & Hlen & Hev)] Hbody.
    destruct (body_log _ _ Hlog Hbody) as (Hlog' & rows' & Hr' & He' & Hl').
    split; [exact Hlog'|].
    exists (rows ++ rows'); rewrite Hr', Hrows, app_assoc, He'.
    rewrite !length_app, length_map; repeat split; lia.
  - split; [apply prologue_log|].
    destruct (prologue_fields s0)
      as [(E & -> & -> & -> & _)|(_ & -> & -> & -> & _)].
    + rewrite E; eexists; split; [reflexivity|].
      rewrite length_app; unfold Result.len; cbn; split; lia.
    + exists []; rewrite app_nil_r; cbn; repeat split; lia.
Qed.

(** ** The budget *)

Lemma body_seed (s s' : Run) :
  body fitness mutation s = Return s' -> self_seed s' = self_seed s + 1.
Proof.
  intros Hbody.
  apply body_return in Hbody as (c & _ & [[_ ->]|[_ ->]]); [reflexivity|].
  unfold trial; destruct (draw_int _ _ _); reflexivity.
Qed.

Lemma body_evals (s s' : Run) :
  body fitness mutation s = Return s' ->
  Z.of_nat (List.length (evals s')) =
  Z.of_nat (List.length (evals s)) + (epoch s' - epoch s).
Proof.
  intros Hbody.
  apply body_return in Hbody as (c & _ & [[_ ->]|[_ ->]]); [cbn; lia|].
  unfold trial; destruct (draw_int _ _ _); cbn.
  rewrite length_app; cbn; lia.
Qed.

(** Between two states of the loop: the epoch counter never decreases and,
    once within the budget, never passes it; the fitness function is
    evaluated exactly once per epoch counted; and the seed advances once
    per iteration, that is once per epoch counted plus once per iteration
    that was skipped, of which there are no more than keys dropped from
    the metadata. *)
Theorem budget_accounting (s s' : Run) :
  reaches fitness epochs mutation s s' ->
  epoch s <= epoch s' /\
  (epoch s <= epochs -> epoch s' <= epochs) /\
  Z.of_nat (List.length (evals s')) =
    Z.of_nat (List.length (evals s)) + (epoch s' - epoch s) /\
  epoch s' - epoch s <= self_seed s' - self_seed s /\
  self_seed s' - self_seed s <=
    (epoch s' - epoch s)
    + (Z.of_nat (List.length (self_meta s))
       - Z.of_nat (List.length (self_meta s'))).
Proof.
  intros Hreach; induction Hreach as [s|s s1 s' Hcond Hbody _ IH].
  - repeat split; lia.
  - pose proof (body_seed _ _ Hbody) as Hseed.
    pose proof (body_evals _ _ Hbody) as Hevals.
    pose proof (body_progress _ _ _ _ Hbody) as Hstep.
    unfold loop_cond in Hcond; apply andb_prop in Hcond as [Hlt _].
    apply Z.ltb_lt in Hlt.
    destruct IH as (H1 & H2 & H3 & H4 & H5).
    repeat split; lia.
Qed.

(** ** What the loop leaves alone *)

(** An iteration changes the value of no key but the one it selected. *)
Lemma body_hyp_frame (s s' : Run) (c : Choice) (k : string) :
  select s = inr c ->
  body fitness mutation s = Return s' ->
  k <> c_key c ->
  sget (self_hyp s') k = sget (self_hyp s) k.
Proof.
  intros Hc Hbody Hk.
  apply (body_returns fitness mutation _ _ _ Hc) in Hbody; subst s'.
  destruct (c_momentum c =? 0); [reflexivity|].
  unfold trial; destruct (draw_int _ _ _); cbn.
  destruct (Py.ltb _ _); [|reflexivity].
  apply (get_set_ne _ String.eqb_spec), Hk.
Qed.

(** Along the loop the mapping keeps its keys, in their order, and a key
    that is not (or no longer) in the active metadata keeps its value:
    keys that match no tier are never perturbed, and a pruned key is never
    touched again. *)
Theorem inactive_keys_keep_their_value (s s' : Run) :
  reaches fitness epochs mutation s s' ->
  skeys (self_hyp s') = skeys (self_hyp s) /\
  forall k : string,
    ~ In k (skeys (self_meta s)) ->
    sget (self_hyp s') k = sget (self_hyp s) k.
Proof.
  intros Hreach; induction Hreach as [s|s s1 s' _ Hbody _ [IHk IHv]].
  - split; [reflexivity|auto].
  - split; [rewrite IHk; exact (body_hyp_keys _ _ _ _ Hbody)|].
    intros k Hk.
    rewrite IHv.
    + pose proof Hbody as Hb.
      apply body_return in Hb as (c & Hc & _).
      apply (body_hyp_frame _ _ c k Hc Hbody).
      intros ->; apply Hk.
      apply select_inr in Hc as (Hget & _).
      exact (get_in_keys _ String.eqb_spec _ _ _ Hget).
    + intros Hin; apply Hk, (body_meta_keys _ _ _ _ Hbody), Hin.
Qed.

(** ** Proposed values *)

(** Every row of [META] has a positive pace that divides the span of its
    limits: the last index of its grid is its upper limit. *)
Lemma META_grid (e : KeyMeta) :
  from_META e ->
  (0 < pace e)%Q /\
  (inject_Z (Py.round ((upper_lim e - lower_lim e) / pace e)) * pace e
   + lower_lim e == upper_lim e)%Q.
Proof.
  unfold from_META, profile_of; cbn; intros H.
  repeat (destruct H as [H|H];
          [injection H as <- <- <-; split; reflexivity|]).
  destruct H.
Qed.

(** For the key an iteration selects among active keys whose bounds and
    pace are rows of [META]: whatever the direction and the step, the
    candidate value lies between the lower and the upper limit of the key;
    so does the value the evaluated trial records and, if it is accepted,
    stores. *)
Theorem proposals_within_limits (s : Run) (c : Choice) :
  meta_from_META s ->
  select s = inr c ->
  (forall momentum step : Z,
     lower_lim (c_meta c)
     <= inject_Z (candidate (c_previous c) momentum step (c_range c))
        * pace (c_meta c) + lower_lim (c_meta c)
     <= upper_lim (c_meta c))%Q /\
  (forall (s' : Run) (row : Trial),
     body fitness mutation s = Return s' ->
     self_result s' = self_result s ++ [row] ->
     (lower_lim (c_meta c) <= t_current row <= upper_lim (c_meta c))%Q).
Proof.
  intros Hmeta Hc.
  pose proof Hc as Hsel.
  apply select_inr in Hc as (Hget & _ & Hrange & _).
  pose proof (META_range _ (Hmeta _ _ Hget)) as [H9 _].
  pose proof (META_grid _ (Hmeta _ _ Hget)) as [Hpace Hgrid].
  rewrite <- Hrange in H9, Hgrid.
  assert (Hany : forall momentum step : Z,
    (lower_lim (c_meta c)
     <= inject_Z (candidate (c_previous c) momentum step (c_range c))
        * pace (c_meta c) + lower_lim (c_meta c)
     <= upper_lim (c_meta c))%Q).
  { intros momentum step.
    destruct (clip_between (c_previous c + momentum * step) 0 (c_range c)
                ltac:(lia)) as [H0 H1].
    fold (candidate (c_previous c) momentum step (c_range c)) in H0, H1.
    set (current := candidate (c_previous c) momentum step (c_range c)) in *.
    rewrite Zle_Qle in H0, H1.
    assert (Hlo : (0 <= inject_Z current * pace (c_meta c))%Q)
      by (apply Qmult_le_0_compat; [exact H0|apply Qlt_le_weak, Hpace]).
    assert (Hhi : (inject_Z current * pace (c_meta c)
                   <= inject_Z (c_range c) * pace (c_meta c))%Q)
      by (apply Qmult_le_compat_r; [exact H1|apply Qlt_le_weak, Hpace]).
    split; [lra|rewrite <- Hgrid; lra]. }
  split; [exact Hany|].
  intros s' row Hbody Hrow.
  apply (body_returns fitness mutation _ _ _ Hsel) in Hbody; subst s'.
  destruct (c_momentum c =? 0).
  - cbn in Hrow; exfalso; exact (app_one_neq _ _ Hrow).
  - unfold trial in Hrow.
    destruct (draw_int _ _ _) as [step g3]; cbn in Hrow.
    apply app_inj_tail in Hrow as [_ <-]; cbn.
    apply Hany.
Qed.


(** ** Runs that never raise *)







Lemma in_get_nodup {V : Type} (d : dict V) (k : string) (v : V) :
  NoDup (skeys d) -> In (k, v) d -> sget d k = Some v.
Proof.
  induction d as [|[k0 v0] d IH]; cbn; [tauto|].
  intros Hnd [E|Hin]; inversion Hnd as [|? ? Hk0 Hd]; subst.
  - injection E as -> ->; rewrite String.eqb_refl; reflexivity.
  - destruct (String.eqb_spec k k0) as [->|N]; [|auto].
    exfalso; apply Hk0, in_map_iff; exists (k0, v); auto.
Qed.



















(** ** Edge cases of a first call *)

(** On a fresh project directory, with a budget of no epoch or a mapping
    in which no key is tunable, [__call__] evaluates the baseline, records
    it as the only row, saves, and returns the mapping as it was given. *)
Theorem nothing_to_search (hyp : dict Q) (P : Q) (now : Z) (g : G) :
  epochs <= 0 \/ set_meta hyp P = [] ->
  exists s' : Run,
    call fitness epochs mutation (init hyp P now [] None None g)
      = Some (Return s') /\
    self_hyp s' = hyp /\
    self_result s' = [mkTrial "baseline" 0 0 0 (fitness hyp 0)] /\
    evals s' = [(hyp, 0)] /\
    best_fit s' = fitness hyp 0 /\
    hyp_f s' = Some hyp /\
    state_f s' = Some (set_meta hyp P, now).
Proof.
  intros Hnothing; unfold call.
  set (s0 := prologue fitness (init hyp P now [] None None g)).
  assert (Hmeta : self_meta s0 = set_meta hyp P) by reflexivity.
  assert (Hepoch : epoch s0 = 0) by reflexivity.
  exists s0; split; [|repeat split].
  apply while_done; unfold loop_cond; rewrite Hmeta, Hepoch.
  destruct Hnothing as [He| ->]; [|apply andb_false_r].
  apply andb_false_iff; left; apply Z.ltb_ge; lia.
Qed.

Lemma sum_zero (l : list Q) :
  (forall x, In x l -> x == 0)%Q -> (Py.sum l == 0)%Q.
Proof.
  unfold Py.sum; generalize 0%Q at 2 3 as a.
  induction l as [|x l IH]; cbn; intros a Hl; [reflexivity|].
  rewrite IH by auto.
  rewrite (Hl x) by auto; ring.
Qed.

(** With an initial patience of zero, a first call that has a key to tune
    and an epoch to spend raises [ValueError] in its first iteration, when
    [np.random.choice] is given the weights [0 / 0]; the baseline row is
    all it has recorded. *)
Theorem zero_patience_raises (hyp : dict Q) (P : Q) (now : Z) (g : G) :
  (P == 0)%Q ->
  set_meta hyp P <> [] ->
  0 < epochs ->
  0 <= now + 1 < 2 ^ 32 ->
  exists s' : Run,
    call fitness epochs mutation (init hyp P now [] None None g)
      = Some (Raise ValueError s') /\
    self_result s' = [mkTrial "baseline" 0 0 0 (fitness hyp 0)] /\
    self_hyp s' = hyp.
Proof.
  intros HP Hne Hepochs Hseed; unfold call.
  set (s0 := prologue fitness (init hyp P now [] None None g)).
  assert (Hmeta : self_meta s0 = set_meta hyp P) by reflexivity.
  assert (Hcond : loop_cond epochs s0 = true).
  { unfold loop_cond; rewrite Hmeta.
    change (epoch s0) with 0.
    apply andb_true_intro; split; [apply Z.ltb_lt; lia|].
    destruct (set_meta hyp P); [congruence|reflexivity]. }
  assert (Hbody : body fitness mutation s0 =
                  Raise ValueError
                    (set_generator s0 (now + 1) (seed_generator (now + 1)))).
  { unfold body, select, np_random_seed; cbv zeta.
    change (self_seed s0) with now.
    destruct (Z.leb_spec 0 (now + 1)); [|lia].
    destruct (Z.ltb_spec (now + 1) (2 ^ 32)); [|lia].
    cbn [andb]; rewrite Hmeta.
    set (p := map (fun kv : string * KeyMeta => (patience (snd kv) ^ 2)%Q)
                (set_meta hyp P)).
    unfold np_random_choice.
    destruct (skeys (set_meta hyp P)) as [|d ks]; [reflexivity|].
    assert (Hsum : Qeq_bool (Py.sum (map (fun x => (x / Py.sum p)%Q) p)) 1
                   = false).
    { destruct (Qeq_bool _ 1) eqn:E; [|reflexivity].
      apply Qeq_bool_iff in E; rewrite sum_zero in E; [discriminate E|].
      intros x Hx; apply in_map_iff in Hx as [y [<- Hy]].
      unfold p in Hy; apply in_map_iff in Hy as [[k e] [<- Hke]]; cbn [snd].
      assert (He : (patience e == 0)%Q).
      { pose proof (set_meta_from_nodup META hyp P) as Hnd.
        apply (in_get_nodup _ _ _ Hnd) in Hke.
        apply set_meta_from_META in Hke as [_ ->]; exact HP. }
      unfold Qdiv; rewrite He; cbn; ring. }
    rewrite Hsum; reflexivity. }
  destruct (measure epochs s0) as [|fuel] eqn:Hfuel.
  - exfalso; unfold measure in Hfuel; change (epoch s0) with 0 in Hfuel; lia.
  - cbn [while]; rewrite Hcond, Hbody.
    eexists; split; [reflexivity|split; reflexivity].
Qed.

(** ** Realized momentum *)

Lemma qclip_between (x : Q) : (-1 <= Py.qclip x (- (1)) 1 <= 1)%Q.
Proof.
  unfold Py.qclip, Py.qmin, Py.qmax.
  destruct (ltb_spec x (- (1))) as [H1|H1];
    [destruct (ltb_spec (- (1)) 1)|destruct (ltb_spec x 1)]; lra.
Qed.

Lemma round3_between (x : Q) :
  (-1 <= x <= 1)%Q -> (-1 <= Py.round3 x <= 1)%Q.
Proof.
  intros [Hlo Hhi]; unfold Py.round3.
  pose proof (round_nearest (x * 1000)) as [Hn1 Hn2].
  assert (H1 : (inject_Z (Py.round (x * 1000)) <= 1000 + (1 # 2))%Q) by lra.
  assert (H2 : (-1000 - (1 # 2) <= inject_Z (Py.round (x * 1000)))%Q) by lra.
  revert H1 H2; generalize (Py.round (x * 1000)) as n; intros n.
  unfold Qle, inject_Z; cbn; lia.
Qed.

(** The momentum a trial records (line 115) lies between -1 and 1. *)
Lemma realized_between (current previous : Z) :
  (-1 <= realized current previous <= 1)%Q.
Proof. unfold realized; apply round3_between, qclip_between. Qed.

Definition momenta_bounded (r : Result.t) : Prop :=
  Forall (fun row => (-1 <= t_momentum row <= 1)%Q) r.

Lemma body_momenta (s s' : Run) :
  momenta_bounded (self_result s) ->
  body fitness mutation s = Return s' ->
  momenta_bounded (self_result s').
Proof.
  intros H Hbody.
  apply body_return in Hbody as (c & _ & [[_ ->]|[_ ->]]); [exact H|].
  unfold trial; destruct (draw_int _ _ _); cbn.
  apply Forall_app; split; [exact H|].
  constructor; [apply realized_between|constructor].
Qed.

(** ** The data of the plot *)

(** Lines 145-149 of [plot], from row [i] on: the points of each
    hyperparameter, and the curve of the best fitness so far. *)
Fixpoint plot_loop (i : Z) (rows : list Trial)
  (hyp : dict (list (Z * Q * Q))) (best : list (Z * Q))
  : dict (list (Z * Q * Q)) * list (Z * Q) :=
  match rows with
  | [] => (hyp, best)
  | r :: rows' =>
      let p := (i, t_fitness r) in
      let points := match sget hyp (t_hyp r) with Some l => l | None => [] end in
      let hyp' := sset hyp (t_hyp r) (points ++ [(i, t_fitness r, t_momentum r)]) in
      let best' :=
        if Py.leb (snd (last best (0, 0%Q))) (snd p) then best ++ [p] else best in
      plot_loop (i + 1) rows' hyp' best'
  end.

(** Lines 144-149 of [plot]; on an empty log [self.result.loc[0,
    'fitness']] raises (the decorator of [plot] takes the exception). *)
Definition plot_data (r : Result.t)
  : option (dict (list (Z * Q * Q)) * list (Z * Q)) :=
  match r with
  | [] => None
  | row0 :: rows => Some (plot_loop 1 rows [] [(0, t_fitness row0)])
  end.

(** Line 157: the opacity of a point, from its momentum. *)
Definition plot_alpha (momentum : Q) : Q :=
  ((momentum + 1) * (35 # 100) + (3 # 10))%Q.

(** The points of key [k] among [rows], the first of which is row [i]. *)
Fixpoint rows_of (k : string) (i : Z) (rows : list Trial) : list (Z * Q * Q) :=
  match rows with
  | [] => []
  | r :: rows' =>
      (if String.eqb k (t_hyp r) then [(i, t_fitness r, t_momentum r)] else [])
      ++ rows_of k (i + 1) rows'
  end.

Definition group (hyp : dict (list (Z * Q * Q))) (k : string)
  : list (Z * Q * Q) :=
  match sget hyp k with Some l => l | None => [] end.

Lemma plot_loop_groups (rows : list Trial) (i : Z)
  (hyp : dict (list (Z * Q * Q))) (best : list (Z * Q)) (k : string) :
  group (fst (plot_loop i rows hyp best)) k = group hyp k ++ rows_of k i rows.
Proof.
  revert i hyp best; induction rows as [|r rows IH]; intros i hyp best; cbn.
  - rewrite app_nil_r; reflexivity.
  - rewrite IH; unfold group.
    destruct (String.eqb_spec k (t_hyp r)) as [->|N].
    + rewrite (get_set_eq _ String.eqb_spec), <- app_assoc; reflexivity.
    + rewrite (get_set_ne _ String.eqb_spec) by exact N; reflexivity.
Qed.

Lemma rows_of_in (k : string) (rows : list Trial) (i j : Z) (f m : Q) :
  In (j, f, m) (rows_of k i rows) ->
  exists row, In row rows /\ t_hyp row = k /\ i <= j /\
    f = t_fitness row /\ m = t_momentum row.
Proof.
  revert i; induction rows as [|r rows IH]; intros i; cbn; [tauto|].
  rewrite in_app_iff; intros [H|H].
  - destruct (String.eqb_spec k (t_hyp r)) as [->|N]; [|destruct H].
    destruct H as [[= <- <- <-]|[]]; exists r; repeat split; auto; lia.
  - apply IH in H as (row & Hin & Hk & Hi & Hf & Hm).
    exists row; repeat split; auto; lia.
Qed.

(** The scatter of [plot] groups the rows of the log after the baseline by
    hyperparameter: the points of a key are its rows, in the order of the
    log, each with its epoch, fitness and momentum; a key with no row has
    no group. *)
Theorem plot_groups_rows (row0 : Trial) (rows : list Trial) (k : string) :
  exists groups best,
    plot_data (row0 :: rows) = Some (groups, best) /\
    group groups k = rows_of k 1 rows /\
    (sget groups k = None <-> rows_of k 1 rows = []).
Proof.
  cbn [plot_data].
  destruct (plot_loop 1 rows [] [(0, t_fitness row0)]) as [groups best] eqn:E.
  exists groups, best; split; [reflexivity|].
  pose proof (plot_loop_groups rows 1 [] [(0, t_fitness row0)] k) as Hk.
  rewrite E in Hk; cbn in Hk; split; [exact Hk|].
  split.
  - intros Hnone; rewrite <- Hk; unfold group; rewrite Hnone; reflexivity.
  - intros Hnil.
    assert (Hne : forall rows i (hyp : dict (list (Z * Q * Q))) best,
              (forall l, sget hyp k = Some l -> l <> []) ->
              forall l, sget (fst (plot_loop i rows hyp best)) k = Some l ->
              l <> []).
    { clear; induction rows as [|r rows IH]; intros i hyp best Hhyp; cbn;
        [exact Hhyp|].
      apply IH; intros l.
      destruct (String.eqb_spec k (t_hyp r)) as [->|N].
      - rewrite (get_set_eq _ String.eqb_spec); intros [= <-].
        intros H; apply app_eq_nil in H as [_ H]; discriminate.
      - rewrite (get_set_ne _ String.eqb_spec) by exact N; apply Hhyp. }
    specialize (Hne rows 1 [] [(0, t_fitness row0)]).
    rewrite E in Hne; cbn [fst] in Hne.
    destruct (sget groups k) as [l|] eqn:Hl; [|reflexivity].
    exfalso; apply (Hne ltac:(cbn; discriminate) l eq_refl).
    unfold group in Hk; rewrite Hl, Hnil in Hk; exact Hk.
Qed.

(** Later on the curve: a later epoch and a fitness at least as high. *)
Definition climbs (p q : Z * Q) : Prop := fst p < fst q /\ (snd p <= snd q)%Q.

Lemma strongly_sorted_snoc {A : Type} (R : A -> A -> Prop) (l : list A) (p : A) :
  StronglySorted R l -> Forall (fun x => R x p) l ->
  StronglySorted R (l ++ [p]).
Proof.
  induction 1 as [|x l Hl IH Hx]; intros Hp; cbn.
  - repeat constructor.
  - inversion Hp; subst; constructor; [auto|].
    apply Forall_app; split; [exact Hx|repeat constructor; assumption].
Qed.

Lemma plot_loop_best (rows : list Trial) (i : Z)
  (hyp : dict (list (Z * Q * Q))) (best : list (Z * Q)) (m : Q) :
  best <> [] ->
  StronglySorted climbs best ->
  Forall (fun x => fst x < i /\ (snd x <= m)%Q) best ->
  (snd (last best (0%Z, 0%Q)) == m)%Q ->
  let best' := snd (plot_loop i rows hyp best) in
  StronglySorted climbs best' /\
  hd_error best' = hd_error best /\
  (snd (last best' (0%Z, 0%Q))
   == fold_left (fun m x => Py.qmax m (t_fitness x)) rows m)%Q.
Proof.
  revert i hyp best m; induction rows as [|r rows IH];
    intros i hyp best m Hne Hsorted Hall Hlast; cbn.
  - split; [exact Hsorted|split; [reflexivity|exact Hlast]].
  - set (x := t_fitness r) in *.
    assert (Hm : (m <= Py.qmax m x)%Q /\ (x <= Py.qmax m x)%Q)
      by (unfold Py.qmax; destruct (ltb_spec m x); lra).
    destruct (leb_spec (snd (last best (0%Z, 0%Q))) x) as [Hle|Hgt].
    + destruct (IH (i + 1) 
                  (sset hyp (t_hyp r)
                     (match sget hyp (t_hyp r) with
                      | Some l => l
                      | None => []
                      end ++ [(i, x, t_momentum r)]))
                  (best ++ [(i, x)]) (Py.qmax m x))
        as (H1 & H2 & H3).
      * intros H; apply app_eq_nil in H as [_ H]; discriminate.
      * apply strongly_sorted_snoc; [exact Hsorted|].
        eapply Forall_impl; [|exact Hall].
        intros [j f] [Hj Hf]; unfold climbs; cbn in *; split; [lia|lra].
      * apply Forall_app; split.
        -- eapply Forall_impl; [|exact Hall].
           intros [j f] [Hj Hf]; cbn in *; split; [lia|lra].
        -- repeat constructor; cbn; [lia|tauto].
      * rewrite last_last; cbn [snd].
        unfold Py.qmax; destruct (ltb_spec m x); [reflexivity|lra].
      * split; [exact H1|split; [|exact H3]].
        rewrite H2; destruct best; [congruence|reflexivity].
    + destruct (IH (i + 1)
                  (sset hyp (t_hyp r)
                     (match sget hyp (t_hyp r) with
                      | Some l => l
                      | None => []
                      end ++ [(i, x, t_momentum r)]))
                  best (Py.qmax m x))
        as (H1 & H2 & H3).
      * exact Hne.
      * exact Hsorted.
      * eapply Forall_impl; [|exact Hall].
        intros [j f] [Hj Hf]; cbn in *; split; [lia|lra].
      * rewrite Hlast; unfold Py.qmax; destruct (ltb_spec m x);
          [lra|reflexivity].
      * auto.
Qed.

(** The dashed curve of [plot] starts at the baseline, moves to later
    epochs with a fitness at least as high, and ends at the maximum of the
    fitness column. *)
Theorem plot_best_curve (row0 : Trial) (rows : list Trial) :
  exists groups best,
    plot_data (row0 :: rows) = Some (groups, best) /\
    hd_error best = Some (0, t_fitness row0) /\
    StronglySorted climbs best /\
    (snd (last best (0%Z, 0%Q)) == Result.fitness_max (row0 :: rows))%Q.
Proof.
  cbn [plot_data].
  destruct (plot_loop_best rows 1 [] [(0, t_fitness row0)] (t_fitness row0))
    as (H1 & H2 & H3).
  - discriminate.
  - repeat constructor.
  - constructor; [split; cbn; [lia|lra]|constructor].
  - reflexivity.
  - destruct (plot_loop 1 rows [] [(0, t_fitness row0)]) as [groups best].
    exists groups, best; cbn [snd] in *; repeat split; assumption.
Qed.

Lemma prologue_momenta (s : @Run G) :
  momenta_bounded (self_result s) ->
  momenta_bounded (self_result (prologue fitness s)).
Proof.
  intros H.
  destruct (prologue_fields s) as [(_ & -> & _)|(_ & -> & _)]; [|exact H].
  repeat constructor; cbn; lra.
Qed.

(** At every point of a call on a log whose momenta lie between -1 and 1
    (as do all those the engine records), [plot] finds a first row for its
    curve, and the opacity [(momentum + 1) * .35 + .3] of every point it
    scatters lies between 0.3 and 1. *)
Theorem plot_opacity_is_valid (s0 s : @Run G) :
  momenta_bounded (self_result s0) ->
  reaches fitness epochs mutation (prologue fitness s0) s ->
  momenta_bounded (self_result s) /\
  exists groups best,
    plot_data (self_result s) = Some (groups, best) /\
    forall (k : string) (points : list (Z * Q * Q)) (i : Z) (f m : Q),
      sget groups k = Some points ->
      In (i, f, m) points ->
      ((3 # 10) <= plot_alpha m <= 1)%Q.
Proof.
  intros H0 Hreach.
  assert (Hs : momenta_bounded (self_result s) /\ self_result s <> []).
  { apply (reaches_invariant fitness epochs mutation
             (fun x => momenta_bounded (self_result x) /\ log_consistent x))
      in Hreach.
    - destruct Hreach as [Hm (Hne & _)]; auto.
    - intros x x' [Hm Hlog] Hbody; split.
      + exact (body_momenta _ _ Hm Hbody).
      + exact (proj1 (body_log _ _ Hlog Hbody)).
    - split; [apply prologue_momenta, H0|apply prologue_log]. }
  destruct Hs as [Hm Hne]; split; [exact Hm|].
  destruct (self_result s) as [|row0 rows]; [congruence|].
  cbn [plot_data].
  destruct (plot_loop 1 rows [] [(0, t_fitness row0)]) as [groups best] eqn:E.
  exists groups, best; split; [reflexivity|].
  intros k points i f m Hk Hin.
  pose proof (plot_loop_groups rows 1 [] [(0, t_fitness row0)] k) as Hg.
  rewrite E in Hg; unfold group in Hg; cbn in Hg; rewrite Hk in Hg.
  rewrite Hg in Hin.
  apply rows_of_in in Hin as (row & Hrow & _ & _ & _ & ->).
  inversion Hm as [|? ? _ Hrows]; subst.
  rewrite Forall_forall in Hrows; specialize (Hrows row Hrow).
  unfold plot_alpha; lra.
Qed.

(** ** The fitness function of the self-test *)

(** Lines 170-175: the squared distance of each exact-match
    hyperparameter of the mapping from half its upper limit, and of
    [gb_kernel] from 4, negated; [hyp['gb_kernel']] raises when the key is
    missing. *)
Definition main_fitness (hyp : dict Q) : Exn + Q :=
  let loss :=
    fold_left
      (fun loss kp =>
         match sget hyp (fst kp) with
         | Some v => (loss + (v / p_upper (snd kp) - (1 # 2)) ^ 2)%Q
         | None => loss
         end)
      (unique META) 0%Q in
  match sget hyp "gb_kernel"%string with
  | Some k => inr (- loss - (k - 4) ^ 2)%Q
  | None => inl (KeyError "gb_kernel"%string)
  end.

Lemma square_nonneg (x : Q) : (0 <= x ^ 2)%Q.
Proof.
  destruct x as [n d]; unfold Qle; cbn.
  pose proof (Z.square_nonneg n); lia.
Qed.

(** The self-test's fitness is defined exactly on the mappings that have
    [gb_kernel], is never positive, and is at most [-(gb_kernel - 4)**2]. *)
Theorem main_fitness_is_a_penalty (hyp : dict Q) :
  (sget hyp "gb_kernel"%string = None <->
   main_fitness hyp = inl (KeyError "gb_kernel"%string)) /\
  forall k : Q,
    sget hyp "gb_kernel"%string = Some k ->
    exists v : Q,
      main_fitness hyp = inr v /\ (v <= - (k - 4) ^ 2)%Q /\ (v <= 0)%Q.
Proof.
  unfold main_fitness.
  set (loss := fold_left _ (unique META) 0%Q).
  assert (Hloss : (0 <= loss)%Q).
  { unfold loss.
    apply (fold_left_invariant _ (fun x => (0 <= x)%Q)); [|lra].
    intros a [key p] Ha _; cbn [fst snd].
    destruct (sget hyp key) as [v|]; [|exact Ha].
    pose proof (square_nonneg (v / p_upper p - (1 # 2))); lra. }
  split.
  - destruct (sget hyp "gb_kernel"%string); split; congruence.
  - intros k ->; eexists; split; [reflexivity|].
    pose proof (square_nonneg (k - 4)); split; lra.
Qed.

End MoreFacts.



(** * The further properties on the concrete run *)

Lemma demo_reaches_after2 :
  reaches Demo.fitness 5 Demo.mutation Demo.start Demo.after2.
Proof.
  assert (Hreach : reaches Demo.fitness 5 Demo.mutation Demo.start Demo.after1).
  { eapply reaches_next; [| |apply reaches_here]; vm_compute; reflexivity. }
  eapply reaches_trans; [exact Hreach|].
  eapply reaches_next; [| |apply reaches_here]; vm_compute; reflexivity.
Qed.

Lemma demo_reaches_after3 :
  reaches Demo.fitness 5 Demo.mutation Demo.start Demo.after3.
Proof.
  eapply reaches_trans; [exact demo_reaches_after2|].
  eapply reaches_next; [| |apply reaches_here]; vm_compute; reflexivity.
Qed.

Lemma checkpoint_restores_state_witness :
  sget (self_hyp (load Demo.after2)) "x_depth"%string
    = sget (self_hyp Demo.after2) "x_depth"%string /\
  self_seed (load Demo.after2) = self_seed Demo.after2 /\
  sget (self_meta (load Demo.after2)) "gb_kernel"%string
    = (if Py.startswith "gb_kernel" "_" then None
       else sget (self_meta Demo.after2) "gb_kernel"%string).
Proof.
  destruct (checkpoint_restores_state Demo.fitness 5 Demo.mutation
              (init Demo.hyp 2 1700000000 [] None None 7) Demo.after2
              demo_reaches_after2) as (H1 & H2 & H3).
  split; [exact (H1 "x_depth"%string)|split; [exact H2|]].
  exact (H3 "gb_kernel"%string).
Defined.

Lemma direction_follows_bias_witness :
  select Demo.after2 = inr Demo.choice2 /\
  c_momentum Demo.choice2 =
    (if m_greed (c_meta Demo.choice2) =? -1 then 0 else 1).
Proof.
  assert (Hc : select Demo.after2 = inr Demo.choice2) by (vm_compute; reflexivity).
  split; [exact Hc|].
  assert (Hbias : -1 <= m_greed (c_meta Demo.choice2) <= 1) by (cbn; lia).
  destruct (direction_follows_bias Demo.after2 Demo.choice2 Hc Hbias)
    as (_ & Hlower & _).
  apply Hlower; [reflexivity|discriminate].
Defined.

Lemma bias_is_a_sign_witness : bias_bounded (self_meta Demo.after2).
Proof.
  exact (proj1 (bias_is_a_sign Demo.fitness 5 Demo.mutation Demo.hyp 2
                  1700000000 [] None None 7 Demo.after2 I
                  demo_reaches_after2)).
Defined.

Lemma log_follows_run_witness :
  epoch Demo.after3 = Result.len (self_result Demo.after3) - 1 /\
  best_fit Demo.after3 = Result.fitness_max (self_result Demo.after3).
Proof.
  destruct (log_follows_run Demo.fitness 5 Demo.mutation
              (init Demo.hyp 2 1700000000 [] None None 7) Demo.after3
              demo_reaches_after3) as (H1 & H2 & _).
  split; [exact H1|exact H2].
Defined.

Lemma budget_accounting_witness :
  epoch Demo.start <= epoch Demo.after3 /\
  Z.of_nat (List.length (evals Demo.after3)) =
    Z.of_nat (List.length (evals Demo.start))
    + (epoch Demo.after3 - epoch Demo.start) /\
  epoch Demo.after3 - epoch Demo.start
    <= self_seed Demo.after3 - self_seed Demo.start.
Proof.
  destruct (budget_accounting Demo.fitness 5 Demo.mutation Demo.start
              Demo.after3 demo_reaches_after3) as (H1 & _ & H3 & H4 & _).
  split; [exact H1|split; [exact H3|exact H4]].
Defined.

Lemma inactive_keys_keep_their_value_witness :
  ~ In "lr"%string (skeys (self_meta Demo.start)) /\
  sget (self_hyp Demo.after3) "lr"%string = sget (self_hyp Demo.start) "lr"%string.
Proof.
  assert (Hlr : ~ In "lr"%string (skeys (self_meta Demo.start))).
  { vm_compute; intros [H|[H|[H|[]]]]; discriminate H. }
  split; [exact Hlr|].
  exact (proj2 (inactive_keys_keep_their_value Demo.fitness 5 Demo.mutation
                  Demo.start Demo.after3 demo_reaches_after3) "lr"%string Hlr).
Defined.

Lemma proposals_within_limits_witness :
  select Demo.start = inr Demo.choice0 /\
  (lower_lim (c_meta Demo.choice0)
   <= inject_Z (candidate (c_previous Demo.choice0) 1 25 (c_range Demo.choice0))
      * pace (c_meta Demo.choice0) + lower_lim (c_meta Demo.choice0)
   <= upper_lim (c_meta Demo.choice0))%Q.
Proof.
  assert (Hc : select Demo.start = inr Demo.choice0) by (vm_compute; reflexivity).
  split; [exact Hc|].
  exact (proj1 (proposals_within_limits Demo.fitness Demo.mutation Demo.start
                  Demo.choice0 (init_from_META Demo.fitness 0 _ _ _ _ _) Hc)
           1 25).
Defined.



Lemma nothing_to_search_witness :
  exists s' : Run,
    call Demo.fitness 0 Demo.mutation
      (init Demo.hyp 2 1700000000 [] None None 7) = Some (Return s') /\
    self_hyp s' = Demo.hyp /\
    self_result s' = [mkTrial "baseline" 0 0 0 (Demo.fitness Demo.hyp 0)].
Proof.
  destruct (nothing_to_search Demo.fitness 0 Demo.mutation Demo.hyp 2
              1700000000 7 (or_introl (Z.le_refl 0)))
    as (s' & H1 & H2 & H3 & _).
  exists s'; split; [exact H1|split; [exact H2|exact H3]].
Defined.

Lemma zero_patience_raises_witness :
  exists s' : Run,
    call Demo.fitness 5 Demo.mutation
      (init Demo.hyp 0 1700000000 [] None None 7) = Some (Raise ValueError s') /\
    self_result s' = [mkTrial "baseline" 0 0 0 (Demo.fitness Demo.hyp 0)].
Proof.
  assert (Hne : set_meta Demo.hyp 0 <> []) by (vm_compute; discriminate).
  destruct (zero_patience_raises Demo.fitness 5 Demo.mutation Demo.hyp 0
              1700000000 7 (Qeq_refl 0) Hne eq_refl ltac:(lia))
    as (s' & H1 & H2 & _).
  exists s'; split; [exact H1|exact H2].
Defined.

Lemma plot_opacity_is_valid_witness :
  momenta_bounded (self_result Demo.after3) /\
  exists groups best, plot_data (self_result Demo.after3) = Some (groups, best).
Proof.
  destruct (plot_opacity_is_valid Demo.fitness 5 Demo.mutation
              (init Demo.hyp 2 1700000000 [] None None 7) Demo.after3
              (Forall_nil _) demo_reaches_after3)
    as (H1 & groups & best & H2 & _).
  split; [exact H1|exists groups, best; exact H2].
Defined.
